(** * Guest-card backend: image composition and guest-record workflow

    A shallow embedding of the Express request handlers of the repository
    and of the properties its specification states about them. The server
    file exists in three revisions: [src/unnamed/part_000] (the newest),
    [src/unnamed/part_001] and [src/index.js]. They share the passage that
    composes, uploads and records a card; they differ in the presence check
    of POST /fill-image, in GET /get-image/:id and in the bodies of their
    500 answers. Each revision has a module of its own below.

    - JavaScript values are an inductive type; truthiness is [ToBoolean].
    - Strings are sequences of UTF-16 code units, as the regular expression
      (which has no [u] flag) sees them.
    - The two stores (the bucket and the [Card] collection) are finite maps
      inside a [World], next to the history of the effects on them;
      handlers are written in a state-and-exception monad, so that what an
      aborted handler leaves behind stays visible.
    - What the awaited services answer during one request is an [Env].
    - Requests in flight interleave at their store operations
      ([resume], [reachable]). *)

From Stdlib Require Import ZArith NArith QArith List String Ascii Bool Lia Floats.
From stdpp Require Import base option gmap strings list fin_maps pretty.
Import ListNotations.

Local Open Scope N_scope.

(** ** JavaScript strings and values *)

(** A JavaScript string: its UTF-16 code units. *)
Abbreviation JsStr := (list N).

(** A string literal of the source (all of them are ASCII). *)
Definition lit (s : string) : JsStr :=
  map N_of_ascii (list_ascii_of_string s).

(** An object or array parsed from the JSON body, kept as what the handlers
    can observe of it: the result of converting it to a string ([None] when
    the conversion throws a TypeError, as for [{"toString": 1}]) and the
    result of the schema's string cast ([None] for a CastError). *)
Record JsObj := {
  obj_toString : option JsStr;
  obj_cast : option JsStr
}.

Inductive JsValue :=
| JsUndefined
| JsNull
| JsBool (b : bool)
| JsNumber (f : float)
| JsString (s : JsStr)
| JsObject (o : JsObj).

(** ECMAScript ToBoolean: [undefined], [null], [false], [+0], [-0], [NaN]
    and the empty string are falsy, everything else is truthy. *)
Definition ToBoolean (v : JsValue) : bool :=
  match v with
  | JsUndefined | JsNull => false
  | JsBool b => b
  | JsNumber f => negb (PrimFloat.is_zero f || PrimFloat.is_nan f)
  | JsString s => negb (N.of_nat (length s) =? 0)
  | JsObject _ => true
  end.

(** ** Script classifier: [languageRegex]

    [/^[a-zA-Z\s<accented letters>\s]+$/]: one or more code units, each of
    them in the character class, from the start of the input to its end. *)

Inductive ClassItem :=
| Range (lo hi : N)     (* [lo-hi] *)
| Chr (c : N)           (* a literal character *)
| EscS.                 (* [\s] *)

(** [\s]: the WhiteSpace and LineTerminator code points of ECMAScript. *)
Definition isWhiteSpace (c : N) : bool :=
  existsb (N.eqb c)
    [0x09; 0x0A; 0x0B; 0x0C; 0x0D; 0x20; 0xA0; 0x1680;
     0x2028; 0x2029; 0x202F; 0x205F; 0x3000; 0xFEFF]
  || ((0x2000 <=? c) && (c <=? 0x200A)).

Definition itemMatches (c : N) (i : ClassItem) : bool :=
  match i with
  | Range lo hi => (lo <=? c) && (c <=? hi)
  | Chr d => c =? d
  | EscS => isWhiteSpace c
  end.

(** The accented letters of the class, in the order of the source text
    (U+00E4 and friends are listed twice there, as they are here). *)
Definition accented : list N :=
  [ 0xE4; 0xF6; 0xFC; 0xC4; 0xD6; 0xDC; 0xDF;
    0xE0; 0xE1; 0xE2; 0xE3; 0xE4; 0xE5; 0xE7; 0xE8; 0xE9; 0xEA; 0xEB;
    0xEC; 0xED; 0xEE; 0xEF; 0xF0; 0xF1; 0xF2; 0xF3; 0xF4; 0xF5; 0xF6;
    0xF8; 0xF9; 0xFA; 0xFB; 0xFC; 0xFD; 0xFF;
    0xC0; 0xC1; 0xC2; 0xC3; 0xC4; 0xC5; 0xC7; 0xC8; 0xC9; 0xCA; 0xCB;
    0xCC; 0xCD; 0xCE; 0xCF; 0xD0; 0xD1; 0xD2; 0xD3; 0xD4; 0xD5; 0xD6;
    0xD8; 0xD9; 0xDA; 0xDB; 0xDC; 0xDD ].

(** The whole class: [a-z], [A-Z], [\s], the accented letters, [\s]. *)
Definition languageClass : list ClassItem :=
  [Range 0x61 0x7A; Range 0x41 0x5A; EscS] ++ map Chr accented ++ [EscS].

Definition inLanguageClass (c : N) : bool :=
  existsb (itemMatches c) languageClass.

(** [languageRegex.test(s)] on a string. *)
Definition languageRegex_test (s : JsStr) : bool :=
  match s with
  | [] => false
  | _ :: _ => forallb inLanguageClass s
  end.

(** The designated Latin letter set: what the class holds besides [\s]. *)
Definition isLatinLetter (c : N) : bool :=
  ((0x61 <=? c) && (c <=? 0x7A)) || ((0x41 <=? c) && (c <=? 0x5A))
  || existsb (N.eqb c) accented.

(** ** The platform: library functions the handlers call

    These belong to the JavaScript runtime and to the database driver, not
    to the repository; the handlers are embedded over any such platform. *)
Record Platform := {
  (* Number.prototype.toString *)
  NumberToString : float -> JsStr;
  (* the driver's cast of a string to an ObjectId (a 12-byte number);
     [ObjectId.isValid] tells whether this cast goes through *)
  castObjectId : JsStr -> option N;
  (* encodeURIComponent; [None] when it throws a URIError *)
  encodeURIComponent : JsStr -> option JsStr
}.

(** ** Data model *)

(** A stored document of the [Card] model (schema: three required strings). *)
Record Card := {
  _id : N;
  name : JsStr;
  number : JsStr;
  imagePath : JsStr
}.

(** What [loadImage] yields: the template's dimensions (its pixels play no
    part in the layout). *)
Record Image := {
  img_width : Z;
  img_height : Z
}.

(** One [fillText] call, with the drawing state it was made in. *)
Record DrawnText := {
  dt_text : JsStr;
  dt_x : Q;
  dt_y : Q;
  dt_font : string;
  dt_fillStyle : string;
  dt_textAlign : string;
  dt_textBaseline : string
}.

(** A canvas with its 2d context. [canvas.toBuffer()] encodes exactly this
    content, so the encoded buffer is represented by the canvas itself. *)
Record Canvas := {
  width : Z;
  height : Z;
  background : option Image;
  font : string;
  fillStyle : string;
  textAlign : string;
  textBaseline : string;
  drawn : list DrawnText
}.

Abbreviation Buffer := Canvas.

(** The body of a POST /fill-image request, after [express.json()]:
    a missing field reads as [JsUndefined]. *)
Record FillImageBody := {
  body_name : JsValue;
  body_number : JsValue;
  body_twoNames : JsValue
}.

(** Errors that reach a [catch]. *)
Inductive JsError :=
| TypeError                     (* a failed conversion to string *)
| ReferenceError                (* an identifier that is not defined *)
| URIError
| CastError                     (* driver: malformed ObjectId *)
| ValidationError               (* driver: schema validation at save *)
| DuplicateKey                  (* store: the [_id] is taken *)
| Rejected (message : string)   (* an awaited service call rejected *)
| Thrown (message : string).    (* [throw new Error(message)] *)

(** What an awaited call on an external service comes back with. *)
Inductive Outcome (A : Type) :=
| Resolves (a : A)
| Rejects (message : string).
Arguments Resolves {A} a.
Arguments Rejects {A} message.

(** The answer of the object store to [axios.get]. *)
Record HttpResponse := {
  resp_status : Z;
  resp_statusText : string;
  resp_data : Buffer
}.

(** Everything outside the process during one request. *)
Record Env := {
  now : Z;                                (* new Date().getTime() *)
  loadImage_result : Outcome Image;       (* loadImage(template.jpg) *)
  file_save_result : Outcome unit;        (* file.save(buffer, ...) *)
  getSignedUrl_result : Outcome JsStr;    (* file.getSignedUrl(...)[0] *)
  fresh_id : N;                           (* the _id of a new document *)
  db_result : Outcome unit;               (* the driver's round trip *)
  axios_result : Outcome HttpResponse;    (* axios.get(imagePath) *)
  errorMessage : JsError -> string        (* error.message of library errors *)
}.

(** Effects on the two stores. *)
Inductive Event :=
| EvUpload (fileName : JsStr)
| EvSign (fileName url : JsStr)
| EvCreate (c : Card)
| EvDelete (c : Card).

(** The bucket, the collection and the history of effects, the most recent
    one first. *)
Record World := {
  bucket : gmap JsStr Buffer;
  cards : gmap N Card;
  log : list Event
}.

Definition initial : World := {| bucket := ∅; cards := ∅; log := [] |}.

(** ** Responses *)

Record Headers := {
  contentType : string;
  contentDisposition : JsStr;
  allowOrigin : string
}.

Inductive Body :=
| StatusMessage (status message : string)   (* {status, message} *)
| CardBody (card : Card)                    (* {card} *)
| Deleted (status message : string) (deletedSample : Card)
| CardList (l : list Card)
| Text (s : string)                         (* res.send(string) *)
| Binary (h : Headers) (b : Buffer).        (* res.set(h); res.send(buffer) *)

Record Response := {
  code : Z;
  body : Body
}.

(** [res.json(b)] and [res.send(b)] without [res.status]: 200. *)
Definition res_json (b : Body) : Response := {| code := 200; body := b |}.
Definition res_status_json (c : Z) (b : Body) : Response := {| code := c; body := b |}.

(** ** The handler monad: state and exceptions *)

Definition M (A : Type) : Type := World -> (JsError + A) * World.

Definition ret {A} (a : A) : M A := fun w => (inr a, w).

Definition throw {A} (e : JsError) : M A := fun w => (inl e, w).

Definition bind {A B} (m : M A) (k : A -> M B) : M B :=
  fun w =>
    match m w with
    | (inl e, w') => (inl e, w')
    | (inr a, w') => k a w'
    end.

Notation "x <- m ;; k" := (bind m (fun x => k))
  (at level 100, m at next level, right associativity).
Notation "m ;;; k" := (bind m (fun _ => k))
  (at level 100, right associativity).

(** [try { m } catch (error) { h error }]: the state reached when the
    exception was thrown is the state the catch block starts in. *)
Definition try_catch {A} (m : M A) (h : JsError -> A) : World -> A * World :=
  fun w =>
    match m w with
    | (inl e, w') => (h e, w')
    | (inr a, w') => (a, w')
    end.

(** [await p]: the value an external call resolves to, or its rejection. *)
Definition await {A} (o : Outcome A) : M A :=
  match o with
  | Resolves a => ret a
  | Rejects msg => throw (Rejected msg)
  end.

Definition get_world : M World := fun w => (inr w, w).
Definition put_world (w : World) : M unit := fun _ => (inr tt, w).

(** [error.message] *)
Definition message_of (e : Env) (err : JsError) : string :=
  match err with
  | Rejected m | Thrown m => m
  | _ => errorMessage e err
  end.

(** ** Conversions *)

Section Conversions.
Variable P : Platform.

(** ECMAScript ToString on a request value; throws on an object whose
    conversion fails. Used by [RegExp.prototype.test] and by [fillText]. *)
Definition ToString (v : JsValue) : M JsStr :=
  match v with
  | JsUndefined => ret (lit "undefined")
  | JsNull => ret (lit "null")
  | JsBool true => ret (lit "true")
  | JsBool false => ret (lit "false")
  | JsNumber f => ret (NumberToString P f)
  | JsString s => ret s
  | JsObject o =>
      match obj_toString o with
      | Some s => ret s
      | None => throw TypeError
      end
  end.

(** [languageRegex.test(name)] on a request value. *)
Definition languageRegex_test_value (v : JsValue) : M bool :=
  s <- ToString v ;;
  ret (languageRegex_test s).

(** The driver's cast of a value to a schema path of type String. *)
Inductive Cast :=
| CastNull                (* null or undefined: the path stays unset *)
| CastOk (s : JsStr)
| CastFail.

Definition castString (v : JsValue) : Cast :=
  match v with
  | JsUndefined | JsNull => CastNull
  | JsBool true => CastOk (lit "true")
  | JsBool false => CastOk (lit "false")
  | JsNumber f => CastOk (NumberToString P f)
  | JsString s => CastOk s
  | JsObject o =>
      match obj_cast o with
      | Some s => CastOk s
      | None => CastFail
      end
  end.

(** [{ type: String, required: true }]: set, cast, and not empty. *)
Definition required (c : Cast) : option JsStr :=
  match c with
  | CastOk (x :: s) => Some (x :: s)
  | _ => None
  end.
End Conversions.

(** ** Image compositor *)

Definition createCanvas (w h : Z) : Canvas :=
  {| width := w; height := h; background := None;
     font := "10px sans-serif"; fillStyle := "#000000";
     textAlign := "start"; textBaseline := "alphabetic"; drawn := [] |}.

(** [ctx.drawImage(template, 0, 0, template.width, template.height)] *)
Definition drawImage (c : Canvas) (img : Image) : Canvas :=
  {| width := width c; height := height c; background := Some img;
     font := font c; fillStyle := fillStyle c;
     textAlign := textAlign c; textBaseline := textBaseline c;
     drawn := drawn c |}.

(** The four assignments to the context before the text is drawn. *)
Definition set_style (c : Canvas) (f fs ta tb : string) : Canvas :=
  {| width := width c; height := height c; background := background c;
     font := f; fillStyle := fs; textAlign := ta; textBaseline := tb;
     drawn := drawn c |}.

Definition fillText_str (c : Canvas) (s : JsStr) (x y : Q) : Canvas :=
  {| width := width c; height := height c; background := background c;
     font := font c; fillStyle := fillStyle c;
     textAlign := textAlign c; textBaseline := textBaseline c;
     drawn := drawn c ++
       [ {| dt_text := s; dt_x := x; dt_y := y; dt_font := font c;
            dt_fillStyle := fillStyle c; dt_textAlign := textAlign c;
            dt_textBaseline := textBaseline c |} ] |}.

(** [ctx.fillText(v, x, y)]: the text argument is converted to a string. *)
Definition fillText (P : Platform) (c : Canvas) (v : JsValue) (x y : Q)
  : M Canvas :=
  s <- ToString P v ;;
  ret (fillText_str c s x y).

(** The coordinates of the [fillText] call. The canvas dimensions are
    integers, so the halves are exact in double precision and the rational
    numbers below are the values the program computes. *)
Definition text_x (c : Canvas) : Q := (inject_Z (width c) / 2 - 50)%Q.

Definition text_y (c : Canvas) (twoNames : JsValue) : Q :=
  (inject_Z (height c) / 2 - (if ToBoolean twoNames then 180 else -35))%Q.

(** The text of the handler from [createCanvas] to [canvas.toBuffer()];
    this passage is the same in the three revisions of the file. *)
Definition compose (P : Platform) (template : Image) (name twoNames : JsValue)
  : M Buffer :=
  let canvas := createCanvas (img_width template) (img_height template) in
  let ctx := drawImage canvas template in
  matches <- languageRegex_test_value P name ;;
  let englishText := if matches then true else false in
  let ctx := set_style ctx
               (if englishText then "26px EnglishFont" else "26px ArabicFont")
               "#7d5438" "center" "middle" in
  ctx <- fillText P ctx name (text_x ctx) (text_y ctx twoNames) ;;
  ret ctx.

(** ** Object store gateway *)

(** [`hedayat/${new Date().getTime()}_edited-image.jpg`] *)
Definition fileName (e : Env) : JsStr :=
  lit "hedayat/" ++ lit (pretty (now e)) ++ lit "_edited-image.jpg".

(** [await file.save(buffer, ...)]: an existing object of that name is
    overwritten. *)
Definition file_save (e : Env) (f : JsStr) (b : Buffer) : M unit :=
  await (file_save_result e) ;;;
  w <- get_world ;;
  put_world {| bucket := <[f := b]> (bucket w); cards := cards w;
               log := EvUpload f :: log w |}.

(** [await file.getSignedUrl(...)], first element. The expiry date handed
    over is a function of the clock; the URL is the service's answer. *)
Definition getSignedUrl (e : Env) (f : JsStr) : M JsStr :=
  url <- await (getSignedUrl_result e) ;;
  w <- get_world ;;
  put_world {| bucket := bucket w; cards := cards w;
               log := EvSign f url :: log w |} ;;;
  ret url.

(** ** Guest record store *)

(** [new SampleModel({name, number, imagePath})]: a fresh [_id], and each
    path cast to a string; cast errors surface at [save]. *)
Record Doc := {
  doc_id : N;
  doc_name : Cast;
  doc_number : Cast;
  doc_imagePath : Cast
}.

Definition SampleModel (P : Platform) (e : Env) (n m p : JsValue) : Doc :=
  {| doc_id := fresh_id e; doc_name := castString P n;
     doc_number := castString P m; doc_imagePath := castString P p |}.

Definition validate (d : Doc) : option Card :=
  match required (doc_name d), required (doc_number d),
        required (doc_imagePath d) with
  | Some n, Some m, Some p =>
      Some {| _id := doc_id d; name := n; number := m; imagePath := p |}
  | _, _, _ => None
  end.

(** [await newSample.save()]: validation first, then the insert. *)
Definition save (e : Env) (d : Doc) : M Card :=
  match validate d with
  | None => throw ValidationError
  | Some c =>
      await (db_result e) ;;;
      w <- get_world ;;
      match cards w !! _id c with
      | Some _ => throw DuplicateKey
      | None =>
          put_world {| bucket := bucket w; cards := <[_id c := c]> (cards w);
                       log := EvCreate c :: log w |} ;;;
          ret c
      end
  end.

(** [await SampleModel.find()] *)
Definition find (e : Env) : M (list Card) :=
  await (db_result e) ;;;
  w <- get_world ;;
  ret (map snd (map_to_list (cards w))).

(** [await SampleModel.findById(id)]; [None] is JavaScript's [null]. *)
Definition findById (P : Platform) (e : Env) (id : JsStr) : M (option Card) :=
  match castObjectId P id with
  | None => throw CastError
  | Some oid =>
      await (db_result e) ;;;
      w <- get_world ;;
      ret (cards w !! oid)
  end.

(** [await SampleModel.findByIdAndDelete(id)] *)
Definition findByIdAndDelete (P : Platform) (e : Env) (id : JsStr)
  : M (option Card) :=
  match castObjectId P id with
  | None => throw CastError
  | Some oid =>
      await (db_result e) ;;;
      w <- get_world ;;
      match cards w !! oid with
      | None => ret None
      | Some c =>
          put_world {| bucket := bucket w; cards := delete oid (cards w);
                       log := EvDelete c :: log w |} ;;;
          ret (Some c)
      end
  end.

(** [mongoose.Types.ObjectId.isValid(id)] *)
Definition ObjectId_isValid (P : Platform) (id : JsStr) : bool :=
  match castObjectId P id with
  | Some _ => true
  | None => false
  end.

(** ** Request handlers *)

Definition name_and_number_required : Response :=
  res_status_json 400 (StatusMessage "nok" "Name and number are required").

Definition record_not_found : Response :=
  res_status_json 404 (StatusMessage "not found" "Record not found").

(** [guest.name.replace(/[^\x20-\x7E]/g, '_')] *)
Definition asciiFilename (s : JsStr) : JsStr :=
  map (fun c => if (0x20 <=? c) && (c <=? 0x7E) then c else 0x5F) s.

(** The newest revision of the server ([src/unnamed/part_000]). *)
Module Part000.
Section Handlers.
Variable P : Platform.
Variable e : Env.

(** [app.get("/")] *)
Definition get_root : World -> Response * World :=
  fun w => ({| code := 200; body := Text "Hello! 2 :)" |}, w).

(** [app.get("/guests_list")] *)
Definition get_guests_list : World -> Response * World :=
  try_catch
    (allSamples <- find e ;;
     ret (res_json (CardList allSamples)))
    (fun error =>
       res_status_json 500 (StatusMessage "nok" "Failed to fetch guests list")).

(** [app.post("/fill-image")] *)
Definition post_fill_image (req : FillImageBody) : World -> Response * World :=
  try_catch
    (let name := body_name req in
     let number := body_number req in
     let twoNames := body_twoNames req in
     if negb (ToBoolean name) || negb (ToBoolean number) then
       ret name_and_number_required
     else
       template <- await (loadImage_result e) ;;
       editedImageBuffer <- compose P template name twoNames ;;
       let fileName := fileName e in
       file_save e fileName editedImageBuffer ;;;
       imageUrl <- getSignedUrl e fileName ;;
       let newSample := SampleModel P e name number (JsString imageUrl) in
       savedRecord <- save e newSample ;;
       ret (res_json (CardBody savedRecord)))
    (fun err =>
       res_status_json 500 (StatusMessage "nok" "Failed to create image")).

(** [app.delete("/guests_list/:id")] *)
Definition delete_guests_list (sampleId : JsStr) : World -> Response * World :=
  try_catch
    (deletedSample <- findByIdAndDelete P e sampleId ;;
     match deletedSample with
     | None => ret record_not_found
     | Some d =>
         ret (res_json (Deleted "success" "Record deleted successfully" d))
     end)
    (fun error =>
       res_status_json 500 (StatusMessage "nok" "Failed to delete guest")).

(** [app.get("/get-image/:id")] *)
Definition get_image (guestId : JsStr) : World -> Response * World :=
  try_catch
    (if negb (ObjectId_isValid P guestId) then
       ret (res_status_json 400 (StatusMessage "nok" "Invalid guest ID"))
     else
       guest <- findById P e guestId ;;
       match guest with
       | None =>
           ret (res_status_json 404
                  (StatusMessage "not found" "Guest or image not found"))
       | Some g =>
           if negb (ToBoolean (JsString (imagePath g))) then
             ret (res_status_json 404
                    (StatusMessage "not found" "Guest or image not found"))
           else
             response <- await (axios_result e) ;;
             if negb (resp_status response =? 200)%Z then
               throw (Thrown ("Failed to fetch image: "
                              +:+ resp_statusText response))
             else
               let buffer := resp_data response in
               encodedFilename <-
                 match encodeURIComponent P (name g) with
                 | Some s => ret s
                 | None => throw URIError
                 end ;;
               let contentDisposition :=
                 lit "attachment; filename=" ++ [0x22]
                 ++ asciiFilename (name g) ++ lit ".jpg" ++ [0x22]
                 ++ lit "; filename*=UTF-8''" ++ encodedFilename
                 ++ lit ".jpg" in
               ret {| code := 200;
                      body := Binary
                        {| contentType := "image/jpeg";
                           contentDisposition := contentDisposition;
                           allowOrigin := "*" |} buffer |}
       end)
    (fun error =>
       res_status_json 500
         (StatusMessage "nok"
            ("Failed to fetch image: " +:+ message_of e error))).
End Handlers.
End Part000.

(** The middle revision ([src/unnamed/part_001]). Its POST /fill-image,
    DELETE /guests_list/:id and GET /guests_list are those of [Part000]
    word for word; its GET /get-image/:id differs. *)
Module Part001.
Section Handlers.
Variable P : Platform.
Variable e : Env.

(** [app.get("/get-image/:id")]. The file never requires [axios], so the
    call [axios.get] throws a ReferenceError when it is reached. *)
Definition get_image (guestId : JsStr) : World -> Response * World :=
  try_catch
    (guest <- findById P e guestId ;;
     match guest with
     | None =>
         ret (res_status_json 404
                (StatusMessage "not found" "Guest or image not found"))
     | Some g =>
         if negb (ToBoolean (JsString (imagePath g))) then
           ret (res_status_json 404
                  (StatusMessage "not found" "Guest or image not found"))
         else
           response <- throw ReferenceError ;;
           let buffer := resp_data response in
           ret {| code := 200;
                  body := Binary
                    {| contentType := "image/jpeg";
                       contentDisposition :=
                         lit "attachment; filename=" ++ [0x22] ++ name g
                         ++ lit ".jpg" ++ [0x22];
                       allowOrigin := "*" |} buffer |}
     end)
    (fun error =>
       res_status_json 500 (StatusMessage "nok" "Failed to fetch image")).
End Handlers.
End Part001.

(** The revision in [src/index.js]: no presence check in POST /fill-image,
    no GET /get-image, and error bodies that carry [error.message]. *)
Module IndexJs.
Section Handlers.
Variable P : Platform.
Variable e : Env.

(** [app.get("/guests_list")] *)
Definition get_guests_list : World -> Response * World :=
  try_catch
    (allSamples <- find e ;;
     ret (res_json (CardList allSamples)))
    (fun error =>
       res_status_json 500 (StatusMessage "nok" (message_of e error))).

(** [app.post("/fill-image")] *)
Definition post_fill_image (req : FillImageBody) : World -> Response * World :=
  try_catch
    (let name := body_name req in
     let number := body_number req in
     let twoNames := body_twoNames req in
     template <- await (loadImage_result e) ;;
     editedImageBuffer <- compose P template name twoNames ;;
     let fileName := fileName e in
     file_save e fileName editedImageBuffer ;;;
     imageUrl <- getSignedUrl e fileName ;;
     let newSample := SampleModel P e name number (JsString imageUrl) in
     savedRecord <- save e newSample ;;
     ret (res_json (CardBody savedRecord)))
    (fun err => {| code := 500; body := Text "Internal Server Error" |}).

(** [app.delete("/guests_list/:id")] *)
Definition delete_guests_list (sampleId : JsStr) : World -> Response * World :=
  try_catch
    (deletedSample <- findByIdAndDelete P e sampleId ;;
     match deletedSample with
     | None => ret record_not_found
     | Some d =>
         ret (res_json (Deleted "success" "Record deleted successfully" d))
     end)
    (fun error =>
       res_status_json 500 (StatusMessage "nok" (message_of e error))).
End Handlers.
End IndexJs.

(** ** Executions of the server *)

Inductive Request :=
| GetRoot
| GetGuestsList
| PostFillImage (b : FillImageBody)
| DeleteGuest (id : JsStr)
| GetImage (id : JsStr).

(** One request served by the newest revision. *)
Definition handle (P : Platform) (e : Env) (r : Request)
  : World -> Response * World :=
  match r with
  | GetRoot => Part000.get_root
  | GetGuestsList => Part000.get_guests_list e
  | PostFillImage b => Part000.post_fill_image P e b
  | DeleteGuest id => Part000.delete_guests_list P e id
  | GetImage id => Part000.get_image P e id
  end.

(** ** Auxiliary definitions for the statements *)

(** The canvas [compose] produces once the name has been converted to the
    string [s]. *)
Definition composed (img : Image) (s : JsStr) (twoNames : JsValue) : Canvas :=
  let ctx := set_style (drawImage (createCanvas (img_width img) (img_height img)) img)
               (if languageRegex_test s then "26px EnglishFont"
                else "26px ArabicFont")
               "#7d5438" "center" "middle" in
  fillText_str ctx s (text_x ctx) (text_y ctx twoNames).

(** The value of [ToString], which neither reads nor writes the stores. *)
Definition toStr (P : Platform) (v : JsValue) : JsError + JsStr :=
  fst (ToString P v initial).

(** Every character is a Latin letter of the class or whitespace. *)
Definition latinOrSpace (c : N) : bool := isLatinLetter c || isWhiteSpace c.

Definition failed_to_create_image : Response :=
  res_status_json 500 (StatusMessage "nok" "Failed to create image").

Definition internal_server_error : Response :=
  {| code := 500; body := Text "Internal Server Error" |}.

(** The passage from [loadImage] to [res.json({ card })], which the
    revisions share; they differ in what precedes it and in the [catch]. *)
Definition workflow (P : Platform) (e : Env) (req : FillImageBody) : M Response :=
  template <- await (loadImage_result e) ;;
  editedImageBuffer <- compose P template (body_name req) (body_twoNames req) ;;
  file_save e (fileName e) editedImageBuffer ;;;
  imageUrl <- getSignedUrl e (fileName e) ;;
  savedRecord <- save e (SampleModel P e (body_name req) (body_number req)
                           (JsString imageUrl)) ;;
  ret (res_json (CardBody savedRecord)).

(** The world after the upload of [b], after the URL was issued, and after
    the record [c] was created. *)
Definition uploaded (e : Env) (b : Buffer) (w : World) : World :=
  {| bucket := <[fileName e := b]> (bucket w); cards := cards w;
     log := EvUpload (fileName e) :: log w |}.

Definition issued (e : Env) (url : JsStr) (w : World) : World :=
  {| bucket := bucket w; cards := cards w;
     log := EvSign (fileName e) url :: log w |}.

Definition created (c : Card) (w : World) : World :=
  {| bucket := bucket w; cards := <[_id c := c]> (cards w);
     log := EvCreate c :: log w |}.

Definition removed (oid : N) (c : Card) (w : World) : World :=
  {| bucket := bucket w; cards := delete oid (cards w);
     log := EvDelete c :: log w |}.

(** How a run of the workflow ends. *)
Inductive Run (P : Platform) (e : Env) (req : FillImageBody) (w : World)
  : (JsError + Response) * World -> Prop :=
| run_nothing err :
    (* the template, the conversion of the name or the upload failed *)
    Run P e req w (inl err, w)
| run_unsigned img s :
    loadImage_result e = Resolves img ->
    toStr P (body_name req) = inr s ->
    file_save_result e = Resolves tt ->
    forall msg, getSignedUrl_result e = Rejects msg ->
    Run P e req w
      (inl (Rejected msg), uploaded e (composed img s (body_twoNames req)) w)
| run_unsaved img s url err :
    loadImage_result e = Resolves img ->
    toStr P (body_name req) = inr s ->
    file_save_result e = Resolves tt ->
    getSignedUrl_result e = Resolves url ->
    (validate (SampleModel P e (body_name req) (body_number req) (JsString url)) = None
     \/ (exists msg, db_result e = Rejects msg)
     \/ is_Some (cards w !! fresh_id e)) ->
    Run P e req w
      (inl err,
       issued e url (uploaded e (composed img s (body_twoNames req)) w))
| run_saved img s url c :
    loadImage_result e = Resolves img ->
    toStr P (body_name req) = inr s ->
    file_save_result e = Resolves tt ->
    getSignedUrl_result e = Resolves url ->
    validate (SampleModel P e (body_name req) (body_number req) (JsString url)) = Some c ->
    db_result e = Resolves tt ->
    cards w !! fresh_id e = None ->
    Run P e req w
      (inr (res_json (CardBody c)),
       created c (issued e url (uploaded e (composed img s (body_twoNames req)) w))).

(** ** Interleaved executions *)

(** A request in flight. The handlers run on one event loop and give way
    at every [await]; a fill-image request can be overtaken by others
    between its three store operations. (Suspension points between which
    the stores are not touched are not told apart.) *)
Inductive Task :=
| Arrived (e : Env) (r : Request)
| AwaitFileSave (e : Env) (req : FillImageBody) (b : Buffer)
| AwaitSignedUrl (e : Env) (req : FillImageBody)
| AwaitRecordSave (e : Env) (req : FillImageBody) (url : JsStr).

(** The [catch] of POST /fill-image around one stretch of its body. *)
Definition catch_fill {A} (r : (JsError + A) * World) (k : A -> Response + Task)
  : (Response + Task) * World :=
  match r with
  | (inl err, w') => (inl failed_to_create_image, w')
  | (inr a, w') => (k a, w')
  end.

(** One turn of the event loop for a request of the newest revision: the
    awaited operation takes effect and the handler runs up to its next
    store operation, or to its response. *)
Definition resume (P : Platform) (t : Task) (w : World)
  : (Response + Task) * World :=
  match t with
  | Arrived e (PostFillImage req) =>
      if negb (ToBoolean (body_name req)) || negb (ToBoolean (body_number req))
      then (inl name_and_number_required, w)
      else
        catch_fill
          ((template <- await (loadImage_result e) ;;
            compose P template (body_name req) (body_twoNames req)) w)
          (fun b => inr (AwaitFileSave e req b))
  | Arrived e r => (inl (fst (handle P e r w)), snd (handle P e r w))
  | AwaitFileSave e req b =>
      catch_fill (file_save e (fileName e) b w)
        (fun _ => inr (AwaitSignedUrl e req))
  | AwaitSignedUrl e req =>
      catch_fill (getSignedUrl e (fileName e) w)
        (fun url => inr (AwaitRecordSave e req url))
  | AwaitRecordSave e req url =>
      catch_fill
        ((savedRecord <- save e (SampleModel P e (body_name req)
                                   (body_number req) (JsString url)) ;;
          ret (res_json (CardBody savedRecord))) w)
        inl
  end.

Definition pending (r : Response + Task) : list Task :=
  match r with
  | inl _ => []
  | inr t => [t]
  end.

(** The states of the stores, with the requests in flight, that the server
    reaches from empty stores under any arrival order and interleaving. *)
Inductive reachable (P : Platform) : World -> list Task -> Prop :=
| reachable_initial : reachable P initial []
| reachable_arrive w ts e r :
    reachable P w ts -> reachable P w (Arrived e r :: ts)
| reachable_resume w ts1 t ts2 :
    reachable P w (ts1 ++ t :: ts2) ->
    reachable P (snd (resume P t w))
      (ts1 ++ pending (fst (resume P t w)) ++ ts2).

(** A request running with no other in between. *)
Fixpoint run (P : Platform) (n : nat) (t : Task) (w : World)
  : option (Response * World) :=
  match n with
  | O => None
  | S n =>
      match resume P t w with
      | (inl resp, w') => Some (resp, w')
      | (inr t', w') => run P n t' w'
      end
  end.

(** ** Upload before record: the invariant *)

(** In a history (most recent first), the URL [url] was issued for the
    object [f] after an upload of [f]; and every creation of a record is
    preceded by such an issue of the URL in its imagePath. *)
Definition issued_after_upload (l : list Event) (f url : JsStr) : Prop :=
  exists l1 l2, l = l1 ++ EvSign f url :: l2 /\ In (EvUpload f) l2.

Definition created_after_upload (l : list Event) : Prop :=
  forall l1 c l2, l = l1 ++ EvCreate c :: l2 ->
  exists f, issued_after_upload l2 f (imagePath c).

Record Inv (w : World) : Prop := {
  inv_cards : forall id c, cards w !! id = Some c -> In (EvCreate c) (log w);
  inv_order : created_after_upload (log w);
  inv_bucket : forall f, In (EvUpload f) (log w) -> is_Some (bucket w !! f)
}.

(** What a suspended request relies on: its upload, and the issue of its
    URL, are in the history. *)
Definition task_ok (l : list Event) (t : Task) : Prop :=
  match t with
  | AwaitSignedUrl e _ => In (EvUpload (fileName e)) l
  | AwaitRecordSave e _ url => issued_after_upload l (fileName e) url
  | _ => True
  end.

(** ** A running example *)

(** A platform and an environment to run examples on: a driver that takes
    ids of 24 hexadecimal digits, and services that all answer. *)
Definition hexDigit (c : N) : option N :=
  if (0x30 <=? c) && (c <=? 0x39) then Some (c - 0x30)
  else if (0x61 <=? c) && (c <=? 0x66) then Some (c - 0x57)
  else if (0x41 <=? c) && (c <=? 0x46) then Some (c - 0x37)
  else None.

Definition parseHex (s : JsStr) : option N :=
  fold_left
    (fun acc c =>
       match acc, hexDigit c with
       | Some a, Some d => Some (16 * a + d)
       | _, _ => None
       end)
    s (Some 0).

Definition examplePlatform : Platform :=
  {| NumberToString := fun _ => lit "0";
     castObjectId := fun s =>
       if N.of_nat (length s) =? 24 then parseHex s else None;
     encodeURIComponent := fun s => Some s |}.

Definition exampleEnv : Env :=
  {| now := 1700000000000;
     loadImage_result := Resolves {| img_width := 1200; img_height := 1600 |};
     file_save_result := Resolves tt;
     getSignedUrl_result := Resolves (lit "https://storage.googleapis.com/x?sig=1");
     fresh_id := 7;
     db_result := Resolves tt;
     axios_result := Rejects "unreachable";
     errorMessage := fun _ => "error" |}.

(** The running example with the database unreachable. *)
Definition exampleEnvDbDown : Env :=
  {| now := now exampleEnv;
     loadImage_result := loadImage_result exampleEnv;
     file_save_result := file_save_result exampleEnv;
     getSignedUrl_result := getSignedUrl_result exampleEnv;
     fresh_id := fresh_id exampleEnv;
     db_result := Rejects "connection lost";
     axios_result := axios_result exampleEnv;
     errorMessage := errorMessage exampleEnv |}.

(** The request of the running example: Sara, number 12, with the string
    "false" as the twoNames flag. *)
Definition exampleRequest : FillImageBody :=
  {| body_name := JsString (lit "Sara"); body_number := JsString (lit "12");
     body_twoNames := JsString (lit "false") |}.

Definition exampleCard : Card :=
  {| _id := 7; name := lit "Sara"; number := lit "12";
     imagePath := lit "https://storage.googleapis.com/x?sig=1" |}.

Definition exampleId : JsStr := lit "000000000000000000000007".

(** The stores after the example request was served from empty stores. *)
Definition exampleWorld : World :=
  created exampleCard
    (issued exampleEnv (lit "https://storage.googleapis.com/x?sig=1")
       (uploaded exampleEnv
          (composed {| img_width := 1200; img_height := 1600 |} (lit "Sara")
             (JsString (lit "false"))) initial)).

(** ** Startup: credentials and the database connection *)

(** [process.env]: the variables that are set. *)
Abbreviation ProcessEnv := (gmap string JsStr).

(** [process.env.NAME]: [undefined] when the variable is not set. *)
Definition getenv (env : ProcessEnv) (k : string) : JsValue :=
  match env !! k with
  | Some s => JsString s
  | None => JsUndefined
  end.

(** [s.replace(/\\n/g, '\n')]: every backslash followed by [n], scanning
    from the left, becomes one line feed. *)
Fixpoint replace_backslash_n (s : JsStr) : JsStr :=
  match s with
  | [] => []
  | c :: rest =>
      match rest with
      | d :: rest' =>
          if (c =? 0x5C) && (d =? 0x6E)
          then 0x0A :: replace_backslash_n rest'
          else c :: replace_backslash_n rest
      | [] => [c]
      end
  end.

(** The credential object handed to [admin.credential.cert]. *)
Record ServiceAccount := {
  type : JsValue;
  project_id : JsValue;
  private_key_id : JsValue;
  private_key : JsValue;
  client_email : JsValue;
  client_id : JsValue;
  auth_uri : JsValue;
  token_uri : JsValue;
  auth_provider_x509_cert_url : JsValue;
  client_x509_cert_url : JsValue;
  universe_domain : JsValue
}.

(** [const serviceAccount = { ... }], evaluated while the module loads.
    [process.env.GOOGLE_PRIVATE_KEY.replace] throws a TypeError when the
    variable is not set; nothing catches it. *)
Definition serviceAccount (env : ProcessEnv) : JsError + ServiceAccount :=
  match env !! "GOOGLE_PRIVATE_KEY" with
  | None => inl TypeError
  | Some key =>
      inr {| type := getenv env "GOOGLE_TYPE";
             project_id := getenv env "GOOGLE_PROJECT_ID";
             private_key_id := getenv env "GOOGLE_PRIVATE_KEY_ID";
             private_key := JsString (replace_backslash_n key);
             client_email := getenv env "GOOGLE_CLIENT_EMAIL";
             client_id := getenv env "GOOGLE_CLIENT_ID";
             auth_uri := getenv env "GOOGLE_AUTH_URI";
             token_uri := getenv env "GOOGLE_TOKEN_URI";
             auth_provider_x509_cert_url :=
               getenv env "GOOGLE_AUTH_PROVIDER_CERT_URL";
             client_x509_cert_url := getenv env "GOOGLE_CLIENT_CERT_URL";
             universe_domain := getenv env "GOOGLE_UNIVERSE_DOMAIN" |}
  end.

(** What the connection code does, in order. *)
Inductive StartupEvent :=
| Connect                        (* mongoose.connect(...) *)
| LogConnected                   (* console.log("Connected to MongoDB") *)
| LogError (message : string)    (* console.error("Error connecting ...", err) *)
| SetTimeout (ms : Z).           (* setTimeout(connectWithRetry, ms) *)

(** [connectWithRetry] of the two newer revisions, against the answers the
    driver gives to the successive calls of [mongoose.connect]; when the
    answers run out the last call is still pending. *)
Fixpoint connectWithRetry (answers : list (Outcome unit)) : list StartupEvent :=
  match answers with
  | [] => [Connect]
  | Resolves _ :: _ => [Connect; LogConnected]
  | Rejects msg :: rest =>
      Connect :: LogError msg :: SetTimeout 5000 :: connectWithRetry rest
  end.

(** The connection code of [src/index.js]: one call, no retry. *)
Definition connect_once (answers : list (Outcome unit)) : list StartupEvent :=
  match answers with
  | [] => [Connect]
  | Resolves _ :: _ => [Connect; LogConnected]
  | Rejects msg :: _ => [Connect; LogError msg]
  end.

Definition connects (l : list StartupEvent) : nat :=
  length (List.filter
            (fun ev => match ev with Connect => true | _ => false end) l).

Definition waited (l : list StartupEvent) : Z :=
  fold_right (fun ev acc => match ev with SetTimeout ms => ms + acc | _ => acc end)%Z
    0%Z l.

(** The reasons of the rejected attempts, in order. *)
Definition rejection_messages (answers : list (Outcome unit)) : list string :=
  List.flat_map
    (fun o => match o with
              | Rejects msg => [msg]
              | Resolves _ => []
              end) answers.

(** What one failed attempt of [connectWithRetry] leaves in the trace. *)
Definition failed_attempt (msg : string) : list StartupEvent :=
  [Connect; LogError msg; SetTimeout 5000].

Definition is_rejection (o : Outcome unit) : bool :=
  match o with
  | Rejects _ => true
  | Resolves _ => false
  end.

(** ** What one turn does to the stores *)

(** Every stored record has its key as [_id] and its three strings set. *)
Definition populated (w : World) : Prop :=
  forall id c, cards w !! id = Some c ->
  _id c = id /\ name c <> [] /\ number c <> [] /\ imagePath c <> [].

(** The five things a turn of the event loop can do to the stores. *)
Inductive Turn (w : World) : World -> Prop :=
| turn_same : Turn w w
| turn_uploaded e b : Turn w (uploaded e b w)
| turn_issued e url : Turn w (issued e url w)
| turn_created d c :
    validate d = Some c -> cards w !! _id c = None -> Turn w (created c w)
| turn_removed oid c :
    cards w !! oid = Some c -> Turn w (removed oid c w).

(** ** Turns of fill-image requests *)

(** The request a task belongs to, when it is a fill-image request. *)
Definition fill_task (t : Task) : option Env :=
  match t with
  | Arrived e (PostFillImage _) => Some e
  | Arrived _ _ => None
  | AwaitFileSave e _ _ => Some e
  | AwaitSignedUrl e _ => Some e
  | AwaitRecordSave e _ _ => Some e
  end.

(** Printable ASCII, the range [\x20-\x7E]. *)
Definition printable (c : N) : bool := (0x20 <=? c) && (c <=? 0x7E).

(** More of the running example: a second request, a moment later, and the
    object store answering a download. *)
Definition exampleEnv2 : Env :=
  {| now := 1700000000001;
     loadImage_result := loadImage_result exampleEnv;
     file_save_result := file_save_result exampleEnv;
     getSignedUrl_result := Resolves (lit "https://storage.googleapis.com/y?sig=2");
     fresh_id := 8;
     db_result := db_result exampleEnv;
     axios_result := axios_result exampleEnv;
     errorMessage := errorMessage exampleEnv |}.

Definition exampleRequest2 : FillImageBody :=
  {| body_name := JsString [0x633; 0x627; 0x631; 0x629];
     body_number := JsString (lit "13"); body_twoNames := JsBool true |}.

Definition exampleFetchEnv : Env :=
  {| now := 1700000000002;
     loadImage_result := loadImage_result exampleEnv;
     file_save_result := file_save_result exampleEnv;
     getSignedUrl_result := getSignedUrl_result exampleEnv;
     fresh_id := 9;
     db_result := Resolves tt;
     axios_result :=
       Resolves {| resp_status := 200; resp_statusText := "OK";
                   resp_data :=
                     composed {| img_width := 1200; img_height := 1600 |}
                       (lit "Sara") (JsString (lit "false")) |};
     errorMessage := errorMessage exampleEnv |}.

Definition exampleProcessEnv : ProcessEnv :=
  {[ "GOOGLE_PRIVATE_KEY" := lit "-----BEGIN-----" ++ [0x5C; 0x6E] ++ lit "MIIE"
                              ++ [0x5C; 0x6E] ++ lit "-----END-----";
     "GOOGLE_TYPE" := lit "service_account" ]}.

(** A field that is missing, [null] or the empty string. *)
Definition absent (v : JsValue) : bool :=
  match v with
  | JsUndefined | JsNull | JsString [] => true
  | _ => false
  end.

(** A backslash directly followed by [n] somewhere in the string. *)
Fixpoint has_escape (s : JsStr) : bool :=
  match s with
  | [] => false
  | c :: rest =>
      match rest with
      | d :: _ => ((c =? 0x5C) && (d =? 0x6E)) || has_escape rest
      | [] => false
      end
  end.

(** A second request in the very millisecond of the first. *)
Definition exampleEnvSameMs : Env :=
  {| now := now exampleEnv;
     loadImage_result := loadImage_result exampleEnv;
     file_save_result := file_save_result exampleEnv;
     getSignedUrl_result := Resolves (lit "https://storage.googleapis.com/x?sig=2");
     fresh_id := 8;
     db_result := db_result exampleEnv;
     axios_result := axios_result exampleEnv;
     errorMessage := errorMessage exampleEnv |}.

(** The running example with the URL signing refused. *)
Definition exampleEnvUnsigned : Env :=
  {| now := now exampleEnv;
     loadImage_result := loadImage_result exampleEnv;
     file_save_result := file_save_result exampleEnv;
     getSignedUrl_result := Rejects "permission denied";
     fresh_id := fresh_id exampleEnv;
     db_result := db_result exampleEnv;
     axios_result := axios_result exampleEnv;
     errorMessage := errorMessage exampleEnv |}.

(** ** The script classifier *)

Lemma existsb_Chr c l :
  existsb (itemMatches c) (map Chr l) = existsb (N.eqb c) l.
Proof. induction l as [|d l IH]; simpl; [reflexivity | now rewrite IH]. Qed.

Lemma inLanguageClass_spec c : inLanguageClass c = latinOrSpace c.
Proof.
  unfold inLanguageClass, languageClass, latinOrSpace, isLatinLetter.
  rewrite !existsb_app, existsb_Chr. cbn [existsb itemMatches].
  destruct ((0x61 <=? c) && (c <=? 0x7A)), ((0x41 <=? c) && (c <=? 0x5A)),
    (isWhiteSpace c), (existsb (N.eqb c) accented); reflexivity.
Qed.

Lemma languageRegex_test_forallb s :
  languageRegex_test s = negb (N.of_nat (length s) =? 0) && forallb latinOrSpace s.
Proof.
  destruct s as [|c s]; [reflexivity|].
  unfold languageRegex_test.
  replace (negb (N.of_nat (length (c :: s)) =? 0)) with true
    by (symmetry; apply negb_true_iff, N.eqb_neq; simpl; lia).
  rewrite andb_true_l. generalize (c :: s) as l.
  induction l as [|d l IH]; simpl; [reflexivity|].
  now rewrite inLanguageClass_spec, IH.
Qed.

Lemma languageRegex_test_true s :
  languageRegex_test s = true <->
  s <> [] /\ forall c, In c s -> latinOrSpace c = true.
Proof.
  rewrite languageRegex_test_forallb, andb_true_iff, forallb_forall.
  destruct s as [|c s]; simpl; split; intros [H1 H2]; split;
    try congruence; try discriminate; auto.
Qed.

(** A digit, an Arabic letter and a punctuation mark each make the
    classifier return false. *)
Example languageRegex_test_rejects :
  languageRegex_test (lit "Sara2") = false /\
  languageRegex_test [0x633; 0x627; 0x631; 0x629] = false /\
  languageRegex_test (lit "Sara-Lee") = false /\
  languageRegex_test [0x4D; 0xFC; 0x6C; 0x6C; 0x65; 0x72] = true.
Proof. repeat split. Qed.

(** ** The compositor *)

Lemma ToString_pure P v w : ToString P v w = (toStr P v, w).
Proof.
  unfold toStr.
  destruct v as [| |[|]|f|s|o]; try reflexivity.
  simpl. destruct (obj_toString o); reflexivity.
Qed.

Lemma compose_eq P img v tn w :
  compose P img v tn w =
  match toStr P v with
  | inl err => (inl err, w)
  | inr s => (inr (composed img s tn), w)
  end.
Proof.
  unfold compose, languageRegex_test_value, fillText, bind.
  rewrite ToString_pure.
  destruct (toStr P v) as [err|s] eqn:E; [reflexivity|].
  unfold ret. rewrite ToString_pure, E.
  unfold composed. destruct (languageRegex_test s); reflexivity.
Qed.

Lemma compose_returns P img v tn w b w' :
  compose P img v tn w = (inr b, w') ->
  exists s, toStr P v = inr s /\ b = composed img s tn /\ w' = w.
Proof.
  rewrite compose_eq. destruct (toStr P v) as [err|s]; [discriminate|].
  intros H; injection H as <- <-. eauto.
Qed.

Lemma compose_string P img s tn w :
  compose P img (JsString s) tn w = (inr (composed img s tn), w).
Proof. rewrite compose_eq. reflexivity. Qed.

Lemma text_y_false c :
  (text_y c (JsBool false) == inject_Z (height c) / 2 + 35)%Q.
Proof. unfold text_y; simpl. ring. Qed.

Lemma text_y_true c :
  (text_y c (JsBool true) == inject_Z (height c) / 2 - 180)%Q.
Proof. unfold text_y; simpl. ring. Qed.

Lemma text_y_truthy c v :
  (text_y c v ==
   if ToBoolean v then inject_Z (height c) / 2 - 180
   else inject_Z (height c) / 2 + 35)%Q.
Proof. unfold text_y. destruct (ToBoolean v); ring. Qed.

(** ** The fill-image workflow *)

Lemma validate_id d c : validate d = Some c -> _id c = doc_id d.
Proof.
  unfold validate.
  destruct (required (doc_name d)), (required (doc_number d)),
    (required (doc_imagePath d)); try discriminate.
  intros H; injection H as <-. reflexivity.
Qed.

Lemma required_string P s x :
  required (castString P (JsString s)) = Some x -> x = s /\ s <> [].
Proof. destruct s; simpl; [discriminate|]. intros H; injection H as <-. now split. Qed.

Lemma validate_strings P e n m u c :
  validate (SampleModel P e (JsString n) (JsString m) (JsString u)) = Some c ->
  c = {| _id := fresh_id e; name := n; number := m; imagePath := u |} /\
  n <> [] /\ m <> [] /\ u <> [].
Proof.
  unfold validate, SampleModel; cbn [doc_id doc_name doc_number doc_imagePath].
  destruct (required (castString P (JsString n))) as [n'|] eqn:Hn; [|discriminate].
  destruct (required (castString P (JsString m))) as [m'|] eqn:Hm; [|discriminate].
  destruct (required (castString P (JsString u))) as [u'|] eqn:Hu; [|discriminate].
  apply required_string in Hn as [-> Hn], Hm as [-> Hm], Hu as [-> Hu].
  intros Heq; injection Heq as <-. auto.
Qed.

Lemma validate_imagePath P e n m url c :
  validate (SampleModel P e n m (JsString url)) = Some c ->
  imagePath c = url /\ _id c = fresh_id e.
Proof.
  intros Hv. split; [|exact (validate_id _ _ Hv)].
  unfold validate, SampleModel in Hv;
    cbn [doc_id doc_name doc_number doc_imagePath] in Hv.
  destruct (required (castString P n)); [|discriminate].
  destruct (required (castString P m)); [|discriminate].
  destruct (required (castString P (JsString url))) as [u|] eqn:Hu;
    [|discriminate].
  apply required_string in Hu as [-> _].
  injection Hv as <-. reflexivity.
Qed.

Lemma workflow_Run P e req w : Run P e req w (workflow P e req w).
Proof.
  unfold workflow, bind at 1.
  destruct (loadImage_result e) as [img|msg] eqn:Himg; simpl;
    [|apply run_nothing].
  unfold bind at 1. rewrite compose_eq.
  destruct (toStr P (body_name req)) as [err|s] eqn:Hs; [apply run_nothing|].
  unfold bind at 1. unfold file_save, bind at 1.
  destruct (file_save_result e) as [[]|msg] eqn:Hsave; simpl;
    [|apply run_nothing].
  unfold bind at 1. unfold get_world, put_world. 
  fold (uploaded e (composed img s (body_twoNames req)) w).
  unfold bind at 1. unfold getSignedUrl, bind at 1.
  destruct (getSignedUrl_result e) as [url|msg] eqn:Hurl; simpl;
    [|eapply run_unsigned; eauto].
  unfold bind. simpl.
  fold (issued e url (uploaded e (composed img s (body_twoNames req)) w)).
  unfold save.
  destruct (validate _) as [c|] eqn:Hv; [|eapply run_unsaved; eauto].
  pose proof (validate_id _ _ Hv) as Hid; simpl in Hid.
  destruct (db_result e) as [[]|msg] eqn:Hdb; simpl;
    [|eapply run_unsaved; eauto].
  rewrite Hid. unfold bind, ret, get_world, put_world, throw; simpl.
  destruct (cards w !! fresh_id e) as [c'|] eqn:Hc; simpl.
  - eapply run_unsaved; eauto.
  - replace {| bucket := _; cards := _; log := _ |}
      with (created c (issued e url (uploaded e (composed img s (body_twoNames req)) w)))
      by (unfold created; simpl; now rewrite Hid).
    eapply run_saved; eauto.
Qed.

(** When every service answers, the id is fresh and the three strings are
    not empty, the workflow goes through. *)
Lemma workflow_succeeds P e n m tn w img url :
  n <> [] -> m <> [] -> url <> [] ->
  loadImage_result e = Resolves img ->
  file_save_result e = Resolves tt ->
  getSignedUrl_result e = Resolves url ->
  db_result e = Resolves tt ->
  cards w !! fresh_id e = None ->
  let req := {| body_name := JsString n; body_number := JsString m;
                body_twoNames := tn |} in
  let c := {| _id := fresh_id e; name := n; number := m; imagePath := url |} in
  workflow P e req w =
  (inr (res_json (CardBody c)),
   created c (issued e url (uploaded e (composed img n tn) w))).
Proof.
  intros Hn Hm Hu Himg Hsave Hurl Hdb Hfresh req c.
  unfold workflow, bind at 1. rewrite Himg. simpl.
  unfold bind at 1. rewrite compose_string.
  unfold bind at 1. unfold file_save, bind at 1. rewrite Hsave. simpl.
  unfold bind at 1. unfold get_world, put_world.
  unfold bind at 1. unfold getSignedUrl, bind at 1. rewrite Hurl. simpl.
  unfold bind. simpl. unfold save, validate. simpl.
  destruct n as [|n0 n]; [congruence|].
  destruct m as [|m0 m]; [congruence|].
  destruct url as [|u0 url]; [congruence|].
  simpl. rewrite Hdb. unfold bind, ret, get_world, put_world. simpl.
  rewrite Hfresh. reflexivity.
Qed.

(** A save that fails after the upload: the handler stops with the object
    in the bucket and the collection as it was. *)
Lemma workflow_unsaved P e req w img s url :
  loadImage_result e = Resolves img ->
  toStr P (body_name req) = inr s ->
  file_save_result e = Resolves tt ->
  getSignedUrl_result e = Resolves url ->
  (validate (SampleModel P e (body_name req) (body_number req) (JsString url))
     = None
   \/ (exists msg, db_result e = Rejects msg)
   \/ is_Some (cards w !! fresh_id e)) ->
  exists err,
    workflow P e req w =
    (inl err, issued e url (uploaded e (composed img s (body_twoNames req)) w)).
Proof.
  intros Himg Hs Hsave Hurl Hfail.
  unfold workflow, bind at 1. rewrite Himg. simpl.
  unfold bind at 1. rewrite compose_eq, Hs.
  unfold bind at 1. unfold file_save, bind at 1. rewrite Hsave. simpl.
  unfold bind at 1. unfold get_world, put_world.
  unfold bind at 1. unfold getSignedUrl, bind at 1. rewrite Hurl. simpl.
  unfold bind. simpl.
  fold (uploaded e (composed img s (body_twoNames req)) w).
  fold (issued e url (uploaded e (composed img s (body_twoNames req)) w)).
  unfold save.
  destruct (validate _) as [c|] eqn:Hv; [|eexists; reflexivity].
  destruct (validate_imagePath _ _ _ _ _ _ Hv) as [_ Hid].
  destruct (db_result e) as [[]|msg] eqn:Hdb; simpl; [|eexists; reflexivity].
  unfold bind, ret, get_world, put_world, throw; simpl. rewrite Hid.
  destruct Hfail as [Hf|[[msg Hf]|[c' Hf]]]; try discriminate.
  rewrite Hf. eexists; reflexivity.
Qed.

Lemma post_fill_image_eq P e req w :
  Part000.post_fill_image P e req w =
  if ToBoolean (body_name req) && ToBoolean (body_number req)
  then try_catch (workflow P e req) (fun _ => failed_to_create_image) w
  else (name_and_number_required, w).
Proof.
  unfold Part000.post_fill_image, try_catch.
  destruct (ToBoolean (body_name req)), (ToBoolean (body_number req));
    reflexivity.
Qed.

Lemma index_post_fill_image_eq P e req w :
  IndexJs.post_fill_image P e req w =
  try_catch (workflow P e req) (fun _ => internal_server_error) w.
Proof. reflexivity. Qed.

(** The workflow answers 200 or throws; what it leaves behind is one of
    the four worlds of [Run]. *)
Lemma try_workflow_code P e req w h :
  code (h TypeError) = 500%Z -> (forall err, h err = h TypeError) ->
  let r := try_catch (workflow P e req) h w in
  code (fst r) = 200%Z \/ code (fst r) = 500%Z.
Proof.
  intros Hh Hall r. subst r. unfold try_catch.
  destruct (workflow_Run P e req w); simpl; rewrite ?Hall; auto.
Qed.

(** The object a successful POST /fill-image leaves in the bucket is the
    composed image of the request. *)
Lemma post_fill_image_200 P e req w resp w' :
  Part000.post_fill_image P e req w = (resp, w') ->
  code resp = 200%Z ->
  exists img s url c,
    loadImage_result e = Resolves img /\
    toStr P (body_name req) = inr s /\
    getSignedUrl_result e = Resolves url /\
    validate (SampleModel P e (body_name req) (body_number req) (JsString url))
      = Some c /\
    cards w !! fresh_id e = None /\
    resp = res_json (CardBody c) /\
    w' = created c (issued e url
           (uploaded e (composed img s (body_twoNames req)) w)).
Proof.
  rewrite post_fill_image_eq.
  destruct (ToBoolean (body_name req) && ToBoolean (body_number req));
    [|intros H; injection H as <- <-; discriminate].
  unfold try_catch.
  destruct (workflow_Run P e req w)
    as [err|img s ? ? ? msg ?|img s url err|img s url c];
    intros Heq; injection Heq as <- <-; try discriminate.
  intros _. exists img, s, url, c. repeat split; assumption.
Qed.

Lemma post_fill_image_succeeds P e n m tn w img url :
  n <> [] -> m <> [] -> url <> [] ->
  loadImage_result e = Resolves img ->
  file_save_result e = Resolves tt ->
  getSignedUrl_result e = Resolves url ->
  db_result e = Resolves tt ->
  cards w !! fresh_id e = None ->
  let req := {| body_name := JsString n; body_number := JsString m;
                body_twoNames := tn |} in
  let c := {| _id := fresh_id e; name := n; number := m; imagePath := url |} in
  Part000.post_fill_image P e req w =
  (res_json (CardBody c),
   created c (issued e url (uploaded e (composed img n tn) w))).
Proof.
  intros Hn Hm Hu Himg Hsave Hurl Hdb Hfresh req c.
  rewrite post_fill_image_eq. unfold try_catch.
  subst req. cbn [body_name body_number ToBoolean].
  destruct n as [|n0 n]; [congruence|].
  destruct m as [|m0 m]; [congruence|].
  cbn [length negb andb N.of_nat N.eqb].
  rewrite (workflow_succeeds P e (n0 :: n) (m0 :: m) tn w img url);
    auto.
Qed.

(** The presence check of the newest revision: a falsy name or number is
    answered with 400 and nothing else happens. *)
Lemma presence_check_rejects P e req w :
  ToBoolean (body_name req) = false \/ ToBoolean (body_number req) = false ->
  Part000.post_fill_image P e req w = (name_and_number_required, w).
Proof.
  intros H. rewrite post_fill_image_eq.
  destruct H as [-> | ->]; [reflexivity|]. now rewrite andb_false_r.
Qed.

Lemma example_run :
  Part000.post_fill_image examplePlatform exampleEnv exampleRequest initial =
  (res_json (CardBody exampleCard), exampleWorld).
Proof.
  apply (post_fill_image_succeeds examplePlatform exampleEnv (lit "Sara")
           (lit "12") (JsString (lit "false")) initial);
    try discriminate; reflexivity.
Defined.

(** ** The other handlers *)

Lemma findByIdAndDelete_run P e id w :
  findByIdAndDelete P e id w =
  match castObjectId P id with
  | None => (inl CastError, w)
  | Some oid =>
      match db_result e with
      | Rejects msg => (inl (Rejected msg), w)
      | Resolves _ =>
          match cards w !! oid with
          | None => (inr None, w)
          | Some c => (inr (Some c), removed oid c w)
          end
      end
  end.
Proof.
  unfold findByIdAndDelete.
  destruct (castObjectId P id) as [oid|]; [|reflexivity].
  unfold bind at 1. destruct (db_result e) as [[]|msg]; simpl; [|reflexivity].
  unfold bind, get_world, put_world, ret.
  destruct (cards w !! oid); reflexivity.
Qed.

Lemma findById_run P e id w :
  findById P e id w =
  match castObjectId P id with
  | None => (inl CastError, w)
  | Some oid =>
      match db_result e with
      | Rejects msg => (inl (Rejected msg), w)
      | Resolves _ => (inr (cards w !! oid), w)
      end
  end.
Proof.
  unfold findById.
  destruct (castObjectId P id) as [oid|]; [|reflexivity].
  unfold bind at 1. destruct (db_result e) as [[]|msg]; reflexivity.
Qed.

Lemma get_image_world P e id w : snd (Part000.get_image P e id w) = w.
Proof.
  unfold Part000.get_image, try_catch, ObjectId_isValid.
  destruct (castObjectId P id) as [oid|] eqn:Hid; cbn [negb]; [|reflexivity].
  unfold bind at 1. rewrite findById_run, Hid.
  destruct (db_result e) as [[]|msg]; [|reflexivity].
  destruct (cards w !! oid) as [g|]; [|reflexivity].
  destruct (negb (ToBoolean (JsString (imagePath g)))); [reflexivity|].
  unfold bind at 1.
  destruct (axios_result e) as [r|msg]; cbn [await]; [|reflexivity].
  unfold ret at 1.
  destruct (negb (resp_status r =? 200)%Z); [reflexivity|].
  unfold bind. destruct (encodeURIComponent P (name g)); reflexivity.
Qed.

Lemma get_guests_list_world e w : snd (Part000.get_guests_list e w) = w.
Proof.
  unfold Part000.get_guests_list, try_catch, find, bind at 1.
  unfold bind at 1. destruct (db_result e) as [[]|msg]; reflexivity.
Qed.

Lemma delete_guests_list_world P e id w :
  snd (Part000.delete_guests_list P e id w) = w \/
  exists oid c, cards w !! oid = Some c /\
    snd (Part000.delete_guests_list P e id w) = removed oid c w.
Proof.
  unfold Part000.delete_guests_list, try_catch, bind.
  rewrite findByIdAndDelete_run.
  destruct (castObjectId P id) as [oid|]; [|now left].
  destruct (db_result e) as [[]|msg]; [|now left].
  destruct (cards w !! oid) as [c|] eqn:Hc; [|now left].
  right. exists oid, c. split; [assumption|reflexivity].
Qed.

(** GET /get-image/:id with a well-formed id that no record has: 404. *)
Lemma get_image_absent P e id oid w :
  castObjectId P id = Some oid -> db_result e = Resolves tt ->
  cards w !! oid = None ->
  Part000.get_image P e id w =
    ({| code := 404;
        body := StatusMessage "not found" "Guest or image not found" |}, w).
Proof.
  intros Hid Hdb Hc.
  unfold Part000.get_image, try_catch, ObjectId_isValid. rewrite Hid.
  cbn [negb]. unfold bind. now rewrite findById_run, Hid, Hdb, Hc.
Qed.

(** ** Upload before record *)

Lemma created_after_upload_nil : created_after_upload [].
Proof. intros [|? ?] c l2 H; discriminate. Qed.

Lemma issued_after_upload_cons ev l f url :
  issued_after_upload l f url -> issued_after_upload (ev :: l) f url.
Proof.
  intros (l1 & l2 & -> & Hu). exists (ev :: l1), l2. now split.
Qed.

Lemma issued_after_upload_In l f url :
  issued_after_upload l f url -> In (EvUpload f) l.
Proof.
  intros (l1 & l2 & -> & Hu). apply in_or_app. right. now right.
Qed.

Lemma created_after_upload_cons ev l :
  created_after_upload l ->
  (forall c, ev = EvCreate c ->
     exists f, issued_after_upload l f (imagePath c)) ->
  created_after_upload (ev :: l).
Proof.
  intros Hl Hev [|ev' l1] c l2 H; simpl in H.
  - injection H as -> <-. now apply Hev.
  - injection H as _ ->. eapply Hl. reflexivity.
Qed.

Lemma Inv_initial : Inv initial.
Proof.
  split; simpl.
  - intros id c H. rewrite lookup_empty in H. discriminate.
  - apply created_after_upload_nil.
  - intros f [].
Qed.

Lemma Inv_uploaded e b w : Inv w -> Inv (uploaded e b w).
Proof.
  intros [Hc Ho Hb]. split; simpl.
  - intros id c H. right. eauto.
  - apply created_after_upload_cons; [assumption|discriminate].
  - intros f [Hf|Hf].
    + injection Hf as <-. rewrite lookup_insert_eq. eauto.
    + destruct (decide (fileName e = f)) as [<-|Hne].
      * rewrite lookup_insert_eq. eauto.
      * rewrite lookup_insert_ne by assumption. auto.
Qed.

Lemma Inv_issued e url w : Inv w -> Inv (issued e url w).
Proof.
  intros [Hc Ho Hb]. split; simpl.
  - intros id c H. right. eauto.
  - apply created_after_upload_cons; [assumption|discriminate].
  - intros f [Hf|Hf]; [discriminate|auto].
Qed.

Lemma Inv_created c f w :
  Inv w -> issued_after_upload (log w) f (imagePath c) -> Inv (created c w).
Proof.
  intros [Hc Ho Hb] Hs. split; simpl.
  - intros id c' H. destruct (decide (_id c = id)) as [<-|Hne].
    + rewrite lookup_insert_eq in H. injection H as <-. now left.
    + rewrite lookup_insert_ne in H by assumption. right. eauto.
  - apply created_after_upload_cons; [assumption|].
    intros c' Heq. injection Heq as <-. eauto.
  - intros f' [Hf|Hf]; [discriminate|auto].
Qed.

Lemma Inv_removed oid c w : Inv w -> Inv (removed oid c w).
Proof.
  intros [Hc Ho Hb]. split; simpl.
  - intros id c' H. right.
    destruct (decide (oid = id)) as [<-|Hne].
    + rewrite lookup_delete_eq in H. discriminate.
    + rewrite lookup_delete_ne in H by assumption. eauto.
  - apply created_after_upload_cons; [assumption|discriminate].
  - intros f [Hf|Hf]; [discriminate|auto].
Qed.

Lemma Inv_post_fill_image P e req w :
  Inv w -> Inv (snd (Part000.post_fill_image P e req w)).
Proof.
  intros HI. rewrite post_fill_image_eq.
  destruct (ToBoolean (body_name req) && ToBoolean (body_number req));
    [|assumption].
  unfold try_catch.
  destruct (workflow_Run P e req w); simpl.
  - assumption.
  - now apply Inv_uploaded.
  - now apply Inv_issued, Inv_uploaded.
  - match goal with H : validate _ = Some _ |- _ => rename H into Hv end.
    apply (Inv_created c (fileName e)).
    + now apply Inv_issued, Inv_uploaded.
    + destruct (validate_imagePath _ _ _ _ _ _ Hv) as [-> _].
      exists [], (log (uploaded e (composed img s (body_twoNames req)) w)).
      split; [reflexivity|now left].
Qed.

Lemma Inv_handle P e r w : Inv w -> Inv (snd (handle P e r w)).
Proof.
  intros HI. destruct r as [| |b|id|id]; simpl.
  - assumption.
  - now rewrite get_guests_list_world.
  - now apply Inv_post_fill_image.
  - destruct (delete_guests_list_world P e id w) as [->|(oid & c & _ & ->)];
      [assumption|now apply Inv_removed].
  - now rewrite get_image_world.
Qed.

(** ** Interleavings *)

Lemma file_save_run e f b w :
  file_save e f b w =
  match file_save_result e with
  | Resolves _ =>
      (inr tt, {| bucket := <[f := b]> (bucket w); cards := cards w;
                  log := EvUpload f :: log w |})
  | Rejects msg => (inl (Rejected msg), w)
  end.
Proof.
  unfold file_save, bind at 1.
  destruct (file_save_result e) as [[]|msg]; reflexivity.
Qed.

Lemma getSignedUrl_run e f w :
  getSignedUrl e f w =
  match getSignedUrl_result e with
  | Resolves url =>
      (inr url, {| bucket := bucket w; cards := cards w;
                   log := EvSign f url :: log w |})
  | Rejects msg => (inl (Rejected msg), w)
  end.
Proof.
  unfold getSignedUrl, bind at 1.
  destruct (getSignedUrl_result e) as [url|msg]; reflexivity.
Qed.

Lemma save_run e d w :
  save e d w =
  match validate d with
  | None => (inl ValidationError, w)
  | Some c =>
      match db_result e with
      | Rejects msg => (inl (Rejected msg), w)
      | Resolves _ =>
          match cards w !! _id c with
          | Some _ => (inl DuplicateKey, w)
          | None => (inr c, created c w)
          end
      end
  end.
Proof.
  unfold save. destruct (validate d) as [c|]; [|reflexivity].
  unfold bind at 1. destruct (db_result e) as [[]|msg]; [|reflexivity].
  cbn [await ret]. unfold bind, get_world.
  destruct (cards w !! _id c); reflexivity.
Qed.

Lemma task_ok_cons ev l t : task_ok l t -> task_ok (ev :: l) t.
Proof.
  destruct t as [e r|e req b|e req|e req url]; simpl; auto.
  apply issued_after_upload_cons.
Qed.

(** A turn of the event loop adds at most one effect to the history. *)
Lemma resume_log P t w :
  log (snd (resume P t w)) = log w \/
  exists ev, log (snd (resume P t w)) = ev :: log w.
Proof.
  destruct t as [e r|e req b|e req|e req url]; cbn [resume].
  - destruct r as [| |req|id|id]; cbn [snd handle].
    + now left.
    + rewrite get_guests_list_world. now left.
    + destruct (negb _ || negb _); [now left|].
      unfold bind. destruct (loadImage_result e) as [img|msg]; [|now left].
      cbn [await ret]. rewrite compose_eq.
      destruct (toStr P (body_name req)); now left.
    + destruct (delete_guests_list_world P e id w) as [->|(oid & c & _ & ->)];
        [now left|right; eexists; reflexivity].
    + rewrite get_image_world. now left.
  - rewrite file_save_run. destruct (file_save_result e); [|now left].
    right; eexists; reflexivity.
  - rewrite getSignedUrl_run. destruct (getSignedUrl_result e); [|now left].
    right; eexists; reflexivity.
  - unfold bind. rewrite save_run.
    destruct (validate _) as [c|]; [|now left].
    destruct (db_result e); [|now left].
    destruct (cards w !! _id c); [now left|].
    right; eexists; reflexivity.
Qed.

Lemma resume_task_ok P t w t' :
  task_ok (log w) t' -> task_ok (log (snd (resume P t w))) t'.
Proof.
  intros H. destruct (resume_log P t w) as [->|[ev ->]];
    [assumption|now apply task_ok_cons].
Qed.

(** A turn keeps the invariant, and the request it suspends again has what
    it relies on. *)
Lemma resume_Inv P t w :
  Inv w -> task_ok (log w) t ->
  Inv (snd (resume P t w)) /\
  forall t', In t' (pending (fst (resume P t w))) ->
             task_ok (log (snd (resume P t w))) t'.
Proof.
  intros HI Ht. destruct t as [e r|e req b|e req|e req url]; cbn [resume].
  - destruct r as [| |req|id|id];
      try (split; [apply (Inv_handle P e _ w HI)|intros t' []]).
    destruct (negb _ || negb _); [split; [assumption|intros t' []]|].
    unfold bind. destruct (loadImage_result e) as [img|msg];
      [|split; [assumption|intros t' []]].
    cbn [await ret]. rewrite compose_eq.
    destruct (toStr P (body_name req)) as [err|s];
      (split; [assumption|]); simpl; [intros t' []|intros t' [<-|[]]; exact I].
  - rewrite file_save_run.
    destruct (file_save_result e); [|split; [assumption|intros t' []]].
    split; [now apply (Inv_uploaded e b w)|].
    simpl. intros t' [<-|[]]. simpl. now left.
  - rewrite getSignedUrl_run. simpl in Ht.
    destruct (getSignedUrl_result e) as [url|msg];
      [|split; [assumption|intros t' []]].
    split; [now apply (Inv_issued e url w)|].
    simpl. intros t' [<-|[]]. simpl. exists [], (log w). now split.
  - unfold bind. rewrite save_run. simpl in Ht.
    destruct (validate _) as [c|] eqn:Hv; [|split; [assumption|intros t' []]].
    destruct (db_result e); [|split; [assumption|intros t' []]].
    destruct (cards w !! _id c); [split; [assumption|intros t' []]|].
    split; [|intros t' []]. cbn [snd].
    destruct (validate_imagePath _ _ _ _ _ _ Hv) as [Hp _].
    apply (Inv_created c (fileName e)); [assumption|].
    now rewrite Hp.
Qed.

Lemma reachable_Inv P w ts :
  reachable P w ts -> Inv w /\ forall t, In t ts -> task_ok (log w) t.
Proof.
  induction 1 as [|w ts e r _ [HI Hts]|w ts1 t ts2 _ [HI Hts]].
  - split; [apply Inv_initial|intros t []].
  - split; [assumption|]. intros t [<-|Ht]; [exact I|auto].
  - destruct (resume_Inv P t w HI) as [HI' Hp].
    { apply Hts, in_or_app. right. now left. }
    split; [assumption|]. intros t' Ht'.
    apply in_app_or in Ht' as [Ht'|Ht'];
      [|apply in_app_or in Ht' as [Ht'|Ht']].
    + apply resume_task_ok, Hts, in_or_app. now left.
    + now apply Hp.
    + apply resume_task_ok, Hts, in_or_app. right. now right.
Qed.

(** Run alone, the turns of a fill-image request add up to the handler. *)
Lemma bind_assoc {A B C} (m : M A) (f : A -> M B) (g : B -> M C) w :
  bind (bind m f) g w = bind m (fun a => bind (f a) g) w.
Proof. unfold bind. destruct (m w) as [[err|a] w']; reflexivity. Qed.

Lemma workflow_turns P e req w :
  workflow P e req w =
  (editedImageBuffer <-
     (template <- await (loadImage_result e) ;;
      compose P template (body_name req) (body_twoNames req)) ;;
   file_save e (fileName e) editedImageBuffer ;;;
   imageUrl <- getSignedUrl e (fileName e) ;;
   savedRecord <- save e (SampleModel P e (body_name req) (body_number req)
                            (JsString imageUrl)) ;;
   ret (res_json (CardBody savedRecord))) w.
Proof. unfold workflow. symmetry. apply bind_assoc. Qed.

Lemma run_post_fill_image P e req w :
  run P 4 (Arrived e (PostFillImage req)) w =
  Some (Part000.post_fill_image P e req w).
Proof.
  rewrite post_fill_image_eq. cbn [run resume].
  destruct (ToBoolean (body_name req)), (ToBoolean (body_number req));
    cbn [negb orb andb]; try reflexivity.
  unfold try_catch. rewrite workflow_turns.
  set (turn1 := bind (await (loadImage_result e))
                  (fun template =>
                     compose P template (body_name req) (body_twoNames req))).
  unfold catch_fill, bind.
  destruct (turn1 w) as [[err|b] w1]; [reflexivity|].
  cbn [run resume]. unfold catch_fill.
  destruct (file_save e (fileName e) b w1) as [[err|[]] w2]; [reflexivity|].
  cbn [run resume]. unfold catch_fill.
  destruct (getSignedUrl e (fileName e) w2) as [[err|url] w3]; [reflexivity|].
  cbn [run resume]. unfold catch_fill, bind.
  destruct (save e _ w3) as [[err|c] w4]; reflexivity.
Qed.

Lemma run_handle P e r w : exists n, run P n (Arrived e r) w = Some (handle P e r w).
Proof.
  destruct r as [| |req|id|id];
    try (exists 1%nat; cbn [run resume]; now rewrite <- surjective_pairing).
  exists 4%nat. apply run_post_fill_image.
Qed.

Lemma reachable_run P n : forall t w ts resp w',
  reachable P w (t :: ts) -> run P n t w = Some (resp, w') ->
  reachable P w' ts.
Proof.
  induction n as [|n IH]; intros t w ts resp w' Hr Hrun; [discriminate|].
  cbn [run] in Hrun.
  pose proof (reachable_resume P w [] t ts Hr) as Hstep.
  destruct (resume P t w) as [[resp'|t'] w1]; simpl in Hstep.
  - injection Hrun as _ <-. exact Hstep.
  - eapply IH; eassumption.
Qed.

(** Serving a request at once is one of the interleavings. *)
Lemma reachable_handle P e r w ts :
  reachable P w ts -> reachable P (snd (handle P e r w)) ts.
Proof.
  intros Hr. destruct (run_handle P e r w) as [n Hn].
  apply (reachable_run P n (Arrived e r) w ts (fst (handle P e r w))).
  - now apply reachable_arrive.
  - now rewrite Hn, <- surjective_pairing.
Qed.

Lemma example_reachable :
  reachable examplePlatform
    (snd (Part000.post_fill_image examplePlatform exampleEnv exampleRequest
            initial)) [].
Proof.
  exact (reachable_handle examplePlatform exampleEnv
           (PostFillImage exampleRequest) initial [] (reachable_initial _)).
Defined.

(** * The claims *)

(** C1. On a surface of width w and height h the compositor draws the name
    once, at x = w/2 - 50 and at y = h/2 + 35 when twoNames is false, at
    y = h/2 - 180 when twoNames is true; for the same h the second is
    exactly 215 units above the first. *)
Theorem fillText_position P (template : Image) (name : JsValue) (twoNames : bool)
    (w : World) (b : Buffer) (w' : World) :
  compose P template name (JsBool twoNames) w = (inr b, w') ->
  width b = img_width template /\ height b = img_height template /\
  exists t,
    drawn b = [t] /\ toStr P name = inr (dt_text t) /\
    (dt_x t == inject_Z (img_width template) / 2 - 50)%Q /\
    (dt_y t == if twoNames then inject_Z (img_height template) / 2 - 180
               else inject_Z (img_height template) / 2 + 35)%Q /\
    (text_y b (JsBool false) - text_y b (JsBool true) == 215)%Q.
Proof.
  intros H. apply compose_returns in H as (s & Hs & -> & _).
  split; [reflexivity|]. split; [reflexivity|].
  eexists. split; [reflexivity|]. split; [exact Hs|]. cbn [dt_x dt_y].
  split; [reflexivity|]. split.
  - rewrite text_y_truthy. destruct twoNames; reflexivity.
  - rewrite text_y_false, text_y_true. ring.
Qed.

Lemma fillText_position_witness :
  exists t,
    drawn (composed {| img_width := 1200; img_height := 1600 |}
             (lit "Sara") (JsBool true)) = [t] /\
    (dt_x t == 550)%Q /\ (dt_y t == 620)%Q.
Proof.
  destruct (fillText_position examplePlatform
              {| img_width := 1200; img_height := 1600 |}
              (JsString (lit "Sara")) true initial _ initial
              (compose_string _ _ _ _ _))
    as (_ & _ & t & Ht & _ & Hx & Hy & _).
  exists t. split; [exact Ht|]. split.
  - rewrite Hx. reflexivity.
  - rewrite Hy. reflexivity.
Defined.

(** C2, as the code has it. The classifier returns true exactly for the
    non-empty strings all of whose characters are Latin letters of the
    class or whitespace: true for every such string, false for the empty
    string and for every string with a character outside the set. *)
Theorem languageRegex_test_spec (s : JsStr) :
  languageRegex_test s = true <->
  s <> [] /\
  forall c, In c s -> isLatinLetter c = true \/ isWhiteSpace c = true.
Proof.
  rewrite languageRegex_test_true. unfold latinOrSpace.
  split; intros [H1 H2]; split; auto; intros c Hc.
  - apply orb_true_iff; auto.
  - apply orb_true_iff; auto.
Qed.

Lemma languageRegex_test_spec_witness :
  languageRegex_test (lit "Sara Lee") = true.
Proof.
  apply (proj2 (languageRegex_test_spec (lit "Sara Lee"))).
  split; [discriminate|].
  intros c Hc. cbv in Hc.
  repeat (destruct Hc as [<-|Hc]; [vm_compute; auto|]). destruct Hc.
Defined.

(** C2 as written fails on the empty string: all of its characters are in
    the set, and the classifier returns false. *)
Lemma languageRegex_test_empty :
  ~ (forall s : JsStr,
       (forall c, In c s -> isLatinLetter c = true \/ isWhiteSpace c = true) ->
       languageRegex_test s = true).
Proof.
  intros H. specialize (H []). simpl in H.
  discriminate H. intros c [].
Qed.

(** C3. In every state the server reaches, under any interleaving of the
    requests in flight, each stored record was created after the issue of
    the URL in its imagePath, and that URL was issued for an object after
    its upload; the object is in the bucket. A request that changes the
    collection does so after its own upload. A save that fails after the
    upload and the issue of the URL leaves the collection unchanged and the
    uploaded object in the bucket, and is answered with 500. *)
Theorem upload_precedes_record P e (req : FillImageBody) (w : World)
    (ts : list Task) :
  reachable P w ts ->
  (forall id c, cards w !! id = Some c ->
     exists f l1 l2 l3,
       log w = l1 ++ EvCreate c :: l2 ++ EvSign f (imagePath c) :: l3 /\
       In (EvUpload f) l3 /\
       is_Some (bucket w !! f)) /\
  (forall resp w',
     Part000.post_fill_image P e req w = (resp, w') ->
     cards w' <> cards w ->
     exists c url,
       log w' = EvCreate c :: EvSign (fileName e) url
                  :: EvUpload (fileName e) :: log w /\
       imagePath c = url /\ is_Some (bucket w' !! fileName e) /\
       cards w' = <[_id c := c]> (cards w)) /\
  (forall img s url,
     ToBoolean (body_name req) = true -> ToBoolean (body_number req) = true ->
     loadImage_result e = Resolves img ->
     toStr P (body_name req) = inr s ->
     file_save_result e = Resolves tt ->
     getSignedUrl_result e = Resolves url ->
     (validate (SampleModel P e (body_name req) (body_number req)
                  (JsString url)) = None
      \/ (exists msg, db_result e = Rejects msg)
      \/ is_Some (cards w !! fresh_id e)) ->
     exists w',
       Part000.post_fill_image P e req w =
         ({| code := 500;
             body := StatusMessage "nok" "Failed to create image" |}, w') /\
       cards w' = cards w /\
       bucket w' = <[fileName e := composed img s (body_twoNames req)]> (bucket w) /\
       log w' = EvSign (fileName e) url :: EvUpload (fileName e) :: log w).
Proof.
  intros Hreach. apply reachable_Inv in Hreach as [[Hc Ho Hb] _].
  split; [|split].
  - intros id c Hid. apply Hc in Hid.
    destruct (in_split _ _ Hid) as (l1 & l2 & Hl).
    destruct (Ho l1 c l2 Hl) as (f & l2' & l3 & -> & Hu).
    exists f, l1, l2', l3. repeat split; try assumption.
    apply Hb. rewrite Hl. apply in_or_app. right. right.
    apply in_or_app. right. now right.
  - intros resp w'. rewrite post_fill_image_eq.
    destruct (ToBoolean (body_name req) && ToBoolean (body_number req));
      [|intros Heq; injection Heq as <- <-; congruence].
    unfold try_catch.
    destruct (workflow_Run P e req w)
      as [err|img s ? ? ? msg ?|img s url err|img s url c ? ? ? ? Hv];
      intros Heq; injection Heq as <- <-; simpl; try congruence.
    intros _. exists c, url.
    destruct (validate_imagePath _ _ _ _ _ _ Hv) as [Hp _].
    repeat split; try assumption.
    eexists. apply lookup_insert_eq.
  - intros img s url Hn Hm Himg Hs Hsave Hurl Hfail.
    destruct (workflow_unsaved P e req w img s url Himg Hs Hsave Hurl Hfail)
      as [err Hw].
    eexists. rewrite post_fill_image_eq, Hn, Hm. unfold try_catch.
    cbn [andb]. rewrite Hw. repeat split.
Qed.

Lemma upload_precedes_record_witness :
  (exists f,
     is_Some (bucket (snd (Part000.post_fill_image examplePlatform exampleEnv
                             exampleRequest initial)) !! f) /\
     exists l1 l2 l3,
       log (snd (Part000.post_fill_image examplePlatform exampleEnv
                   exampleRequest initial))
       = l1 ++ EvCreate exampleCard :: l2
            ++ EvSign f (imagePath exampleCard) :: l3 /\
       In (EvUpload f) l3) /\
  (exists w',
     Part000.post_fill_image examplePlatform exampleEnvDbDown exampleRequest
       initial
     = ({| code := 500;
           body := StatusMessage "nok" "Failed to create image" |}, w') /\
     cards w' = ∅ /\ is_Some (bucket w' !! fileName exampleEnvDbDown)).
Proof.
  split.
  - destruct (upload_precedes_record examplePlatform exampleEnv exampleRequest
                _ [] example_reachable) as [H _].
    destruct (H 7 exampleCard) as (f & l1 & l2 & l3 & Hl & Hu & Hb).
    + rewrite example_run. apply lookup_insert_eq.
    + exists f. split; [exact Hb|]. exists l1, l2, l3. split; assumption.
  - destruct (upload_precedes_record examplePlatform exampleEnvDbDown
                exampleRequest initial [] (reachable_initial _)) as (_ & _ & H).
    destruct (H {| img_width := 1200; img_height := 1600 |} (lit "Sara")
                (lit "https://storage.googleapis.com/x?sig=1")
                eq_refl eq_refl eq_refl eq_refl eq_refl eq_refl)
      as (w' & Hrun & Hc & Hb & _).
    + right. left. eexists. reflexivity.
    + exists w'. split; [exact Hrun|]. split; [exact Hc|].
      rewrite Hb. eexists. apply lookup_insert_eq.
Defined.

(** C4 on [src/index.js]. That revision has no presence check: with an
    empty name the image is composed and uploaded, the URL is issued, the
    save fails validation, and the answer is 500. *)
Theorem index_fill_image_empty_name P e (number twoNames : JsValue) (w : World)
    (template : Image) (url : JsStr) :
  loadImage_result e = Resolves template ->
  file_save_result e = Resolves tt ->
  getSignedUrl_result e = Resolves url ->
  IndexJs.post_fill_image P e
    {| body_name := JsString []; body_number := number;
       body_twoNames := twoNames |} w =
  ({| code := 500; body := Text "Internal Server Error" |},
   issued e url (uploaded e (composed template [] twoNames) w)).
Proof.
  intros Himg Hsave Hurl. rewrite index_post_fill_image_eq.
  unfold try_catch, workflow, bind at 1. rewrite Himg. simpl.
  unfold bind at 1. rewrite compose_string.
  unfold bind at 1. unfold file_save, bind at 1. rewrite Hsave. simpl.
  unfold bind at 1. unfold get_world, put_world.
  unfold bind at 1. unfold getSignedUrl, bind at 1. rewrite Hurl. simpl.
  unfold bind. simpl. reflexivity.
Qed.

Lemma index_fill_image_empty_name_witness :
  let r := IndexJs.post_fill_image examplePlatform exampleEnv
             {| body_name := JsString []; body_number := JsString (lit "5");
                body_twoNames := JsUndefined |} initial in
  code (fst r) = 500%Z /\ body (fst r) = Text "Internal Server Error" /\
  is_Some (bucket (snd r) !! fileName exampleEnv) /\ cards (snd r) = ∅.
Proof.
  intros r. subst r.
  rewrite (index_fill_image_empty_name examplePlatform exampleEnv
             (JsString (lit "5")) JsUndefined initial
             {| img_width := 1200; img_height := 1600 |}
             (lit "https://storage.googleapis.com/x?sig=1")
             eq_refl eq_refl eq_refl).
  split; [reflexivity|]. split; [reflexivity|]. split; [|reflexivity].
  eexists. apply lookup_insert_eq.
Defined.




(** C6. DELETE /guests_list/:id with a well-formed id, the store answering:
    404 "Record not found" and an unchanged collection when no record has
    the id; otherwise 200 with status, message and the deleted record, and
    that record (and no other) is gone from the collection. The two
    revisions agree. *)
Theorem delete_guests_list_spec P e (id : JsStr) (oid : N) (w : World) :
  castObjectId P id = Some oid ->
  db_result e = Resolves tt ->
  IndexJs.delete_guests_list P e id w = Part000.delete_guests_list P e id w /\
  match cards w !! oid with
  | None =>
      Part000.delete_guests_list P e id w =
      ({| code := 404;
          body := StatusMessage "not found" "Record not found" |}, w)
  | Some c =>
      exists w',
        Part000.delete_guests_list P e id w =
        ({| code := 200;
            body := Deleted "success" "Record deleted successfully" c |}, w') /\
        cards w' = delete oid (cards w) /\
        cards w' !! oid = None /\
        (forall oid', oid' <> oid -> cards w' !! oid' = cards w !! oid') /\
        bucket w' = bucket w
  end.
Proof.
  intros Hid Hdb. split.
  - unfold IndexJs.delete_guests_list, Part000.delete_guests_list, try_catch, bind.
    rewrite findByIdAndDelete_run, Hid, Hdb.
    destruct (cards w !! oid); reflexivity.
  - unfold Part000.delete_guests_list, try_catch, bind.
    rewrite findByIdAndDelete_run, Hid, Hdb.
    destruct (cards w !! oid) as [c|] eqn:Hc; [|reflexivity].
    exists (removed oid c w). split; [reflexivity|]. simpl.
    split; [reflexivity|]. split; [apply lookup_delete_eq|].
    split; [|reflexivity].
    intros oid' Hne. apply lookup_delete_ne. congruence.
Qed.

Lemma delete_guests_list_spec_witness :
  Part000.delete_guests_list examplePlatform exampleEnv exampleId initial =
  ({| code := 404; body := StatusMessage "not found" "Record not found" |},
   initial) /\
  exists w',
    Part000.delete_guests_list examplePlatform exampleEnv exampleId exampleWorld =
    ({| code := 200;
        body := Deleted "success" "Record deleted successfully" exampleCard |},
     w') /\
    cards w' !! 7 = None.
Proof.
  split.
  - exact (proj2 (delete_guests_list_spec examplePlatform exampleEnv exampleId
                    7 initial eq_refl eq_refl)).
  - pose proof (proj2 (delete_guests_list_spec examplePlatform exampleEnv
                         exampleId 7 exampleWorld eq_refl eq_refl)) as H.
    destruct H as (w' & Hrun & _ & Hgone & _). eauto.
Defined.

(** C7. A POST /fill-image with string name and number that is answered
    with 200 carries the stored record as [card]: its name and number are
    the submitted ones and its imagePath is the URL issued for the image
    uploaded in this request. *)
Theorem fill_image_card P e (n m : JsStr) (twoNames : JsValue) (w : World)
    (resp : Response) (w' : World) :
  Part000.post_fill_image P e
    {| body_name := JsString n; body_number := JsString m;
       body_twoNames := twoNames |} w = (resp, w') ->
  code resp = 200%Z ->
  exists card url,
    body resp = CardBody card /\
    name card = n /\ number card = m /\ n <> [] /\ m <> [] /\
    getSignedUrl_result e = Resolves url /\ imagePath card = url /\
    cards w' !! _id card = Some card /\
    is_Some (bucket w' !! fileName e) /\
    log w' = EvCreate card :: EvSign (fileName e) url
               :: EvUpload (fileName e) :: log w.
Proof.
  intros H H200.
  destruct (post_fill_image_200 _ _ _ _ _ _ H H200)
    as (img & s & url & c & Himg & Hs & Hurl & Hv & Hfresh & -> & ->).
  cbn [body_name body_number body_twoNames] in *.
  apply validate_strings in Hv as (-> & Hn & Hm & Hu).
  eexists _, url. split; [reflexivity|].
  repeat split; auto.
  - apply lookup_insert_eq.
  - eexists. apply lookup_insert_eq.
Qed.

Lemma fill_image_card_witness :
  exists card,
    body (fst (Part000.post_fill_image examplePlatform exampleEnv
                 exampleRequest initial)) = CardBody card /\
    name card = lit "Sara" /\ number card = lit "12" /\
    imagePath card = lit "https://storage.googleapis.com/x?sig=1".
Proof.
  destruct (fill_image_card examplePlatform exampleEnv (lit "Sara") (lit "12")
              (JsString (lit "false")) initial _ _ example_run eq_refl)
    as (card & url & Hb & Hn & Hm & _ & _ & Hurl & Hp & _).
  injection Hurl as <-.
  exists card. rewrite example_run. auto.
Defined.

(** C8. The presence check is by truthiness. The answer is the 400
    "Name and number are required", with the stores untouched, exactly when
    name or number is falsy; the number 0, [false], a missing field and the
    empty string are falsy, a string of one space is truthy. *)
Theorem presence_check_truthiness P e (req : FillImageBody) (w : World) :
  (ToBoolean (body_name req) = false \/ ToBoolean (body_number req) = false ->
   Part000.post_fill_image P e req w =
   ({| code := 400;
       body := StatusMessage "nok" "Name and number are required" |}, w)) /\
  (code (fst (Part000.post_fill_image P e req w)) = 400%Z <->
   ToBoolean (body_name req) = false \/ ToBoolean (body_number req) = false) /\
  ToBoolean (JsNumber 0%float) = false /\ ToBoolean (JsBool false) = false /\
  ToBoolean JsUndefined = false /\ ToBoolean (JsString []) = false /\
  ToBoolean (JsString [0x20]) = true.
Proof.
  split; [apply presence_check_rejects|].
  split; [|repeat split].
  split.
  - rewrite post_fill_image_eq.
    destruct (ToBoolean (body_name req)), (ToBoolean (body_number req));
      simpl; auto.
    intros H.
    destruct (try_workflow_code P e req w (fun _ => failed_to_create_image)
                eq_refl (fun _ => eq_refl)) as [H'|H']; congruence.
  - intros H. now rewrite presence_check_rejects.
Qed.

Lemma presence_check_truthiness_witness :
  Part000.post_fill_image examplePlatform exampleEnv
    {| body_name := JsNumber 0%float; body_number := JsString (lit "5");
       body_twoNames := JsUndefined |} initial =
  ({| code := 400;
      body := StatusMessage "nok" "Name and number are required" |}, initial).
Proof.
  apply (proj1 (presence_check_truthiness examplePlatform exampleEnv
                  {| body_name := JsNumber 0%float;
                     body_number := JsString (lit "5");
                     body_twoNames := JsUndefined |} initial)).
  left. reflexivity.
Defined.

(** C9. A non-empty name made of whitespace only is classified as Latin
    script, and the compositor draws it with the Latin font. *)
Theorem whitespace_name_is_latin P (template : Image) (twoNames : JsValue)
    (w : World) (s : JsStr) :
  s <> [] ->
  (forall c, In c s -> isWhiteSpace c = true) ->
  languageRegex_test s = true /\
  exists b t,
    compose P template (JsString s) twoNames w = (inr b, w) /\
    drawn b = [t] /\ dt_text t = s /\
    font b = "26px EnglishFont" /\ dt_font t = "26px EnglishFont".
Proof.
  intros Hne Hws.
  assert (Ht : languageRegex_test s = true).
  { apply languageRegex_test_true. split; [exact Hne|].
    intros c Hc. unfold latinOrSpace. rewrite (Hws c Hc). apply orb_true_r. }
  split; [exact Ht|].
  exists (composed template s twoNames). eexists.
  split; [apply compose_string|].
  unfold composed. rewrite Ht. simpl. repeat split.
Qed.

Lemma whitespace_name_is_latin_witness :
  languageRegex_test [0x20; 0x09; 0xA0] = true.
Proof.
  apply (whitespace_name_is_latin examplePlatform
           {| img_width := 1200; img_height := 1600 |} JsUndefined initial
           [0x20; 0x09; 0xA0]).
  - discriminate.
  - intros c Hc. cbv in Hc.
    repeat (destruct Hc as [<-|Hc]; [reflexivity|]). destruct Hc.
Defined.

(** C10. The twoNames flag is read by truthiness: in the image a successful
    request stores, the name sits at y = h/2 - 180 when twoNames is truthy
    (the string "false" included) and at y = h/2 + 35 when it is falsy or
    absent. *)
Theorem twoNames_truthiness P e (req : FillImageBody) (w : World)
    (resp : Response) (w' : World) :
  Part000.post_fill_image P e req w = (resp, w') ->
  code resp = 200%Z ->
  exists template b t,
    loadImage_result e = Resolves template /\
    bucket w' !! fileName e = Some b /\
    drawn b = [t] /\
    (dt_y t == if ToBoolean (body_twoNames req)
               then inject_Z (img_height template) / 2 - 180
               else inject_Z (img_height template) / 2 + 35)%Q.
Proof.
  intros H H200.
  destruct (post_fill_image_200 _ _ _ _ _ _ H H200)
    as (img & s & url & c & Himg & Hs & Hurl & Hv & Hfresh & -> & ->).
  exists img, (composed img s (body_twoNames req)). eexists.
  split; [exact Himg|]. split; [apply lookup_insert_eq|].
  split; [reflexivity|]. cbn [dt_y].
  apply text_y_truthy.
Qed.

Lemma twoNames_truthiness_witness :
  exists b t,
    bucket (snd (Part000.post_fill_image examplePlatform exampleEnv
                   exampleRequest initial)) !! fileName exampleEnv = Some b /\
    drawn b = [t] /\ (dt_y t == 620)%Q.
Proof.
  destruct (twoNames_truthiness examplePlatform exampleEnv exampleRequest
              initial _ _ example_run eq_refl)
    as (img & b & t & Himg & Hb & Ht & Hy).
  injection Himg as <-.
  exists b, t. rewrite example_run. split; [exact Hb|]. split; [exact Ht|].
  rewrite Hy. reflexivity.
Defined.

(** * Further properties of the code *)

(** ** Turns and requests *)

Lemma find_run e w :
  find e w =
  match db_result e with
  | Resolves _ => (inr (map snd (map_to_list (cards w))), w)
  | Rejects msg => (inl (Rejected msg), w)
  end.
Proof.
  unfold find, bind at 1. destruct (db_result e) as [[]|msg]; reflexivity.
Qed.

Lemma resume_Turn P t w : Turn w (snd (resume P t w)).
Proof.
  destruct t as [e r|e req b|e req|e req url]; cbn [resume].
  - destruct r as [| |req|id|id]; cbn [snd handle].
    + constructor.
    + rewrite get_guests_list_world. constructor.
    + destruct (negb _ || negb _); [constructor|].
      unfold bind. destruct (loadImage_result e) as [img|msg]; [|constructor].
      cbn [await ret]. rewrite compose_eq.
      destruct (toStr P (body_name req)); constructor.
    + destruct (delete_guests_list_world P e id w) as [->|(oid & c & Hc & ->)];
        [constructor|now apply turn_removed].
    + rewrite get_image_world. constructor.
  - rewrite file_save_run. destruct (file_save_result e); [|constructor].
    apply (turn_uploaded w e b).
  - rewrite getSignedUrl_run.
    destruct (getSignedUrl_result e) as [url|]; [|constructor].
    apply (turn_issued w e url).
  - unfold bind. rewrite save_run.
    destruct (validate _) as [c|] eqn:Hv; [|constructor].
    destruct (db_result e); [|constructor].
    destruct (cards w !! _id c) eqn:Hc; [constructor|].
    eapply turn_created; eassumption.
Qed.

(** A request served at once is a sequence of turns. *)
Lemma run_Turns P (Q : World -> Prop) n :
  (forall w w', Q w -> Turn w w' -> Q w') ->
  forall t w resp w', Q w -> run P n t w = Some (resp, w') -> Q w'.
Proof.
  intros HQ. induction n as [|n IH]; intros t w resp w' Hw Hrun;
    [discriminate|].
  cbn [run] in Hrun. pose proof (resume_Turn P t w) as HT.
  destruct (resume P t w) as [[resp'|t'] w1]; cbn [snd] in HT.
  - injection Hrun as _ <-. eauto.
  - eapply IH; [|eassumption]. eauto.
Qed.

Lemma handle_Turns P (Q : World -> Prop) e r w :
  (forall w w', Q w -> Turn w w' -> Q w') ->
  Q w -> Q (snd (handle P e r w)).
Proof.
  intros HQ Hw. destruct (run_handle P e r w) as [n Hn].
  apply (run_Turns P Q n HQ (Arrived e r) w (fst (handle P e r w))); [exact Hw|].
  now rewrite Hn, <- surjective_pairing.
Qed.

Lemma required_nonempty c s : required c = Some s -> s <> [].
Proof.
  destruct c as [|[|x s']|]; simpl; try discriminate.
  intros H; injection H as <-. discriminate.
Qed.

Lemma validate_populated d c :
  validate d = Some c ->
  name c <> [] /\ number c <> [] /\ imagePath c <> [].
Proof.
  unfold validate.
  destruct (required (doc_name d)) as [n|] eqn:Hn; [|discriminate].
  destruct (required (doc_number d)) as [m|] eqn:Hm; [|discriminate].
  destruct (required (doc_imagePath d)) as [p|] eqn:Hp; [|discriminate].
  intros H; injection H as <-. simpl.
  repeat split; eapply required_nonempty; eassumption.
Qed.

Lemma Turn_populated w w' : populated w -> Turn w w' -> populated w'.
Proof.
  intros Hw HT. destruct HT as [|e b|e url|d c Hv Hc|oid c Hc];
    try exact Hw; intros id c'; simpl.
  - destruct (decide (_id c = id)) as [<-|Hne].
    + rewrite lookup_insert_eq. intros H; injection H as <-.
      split; [reflexivity|]. eapply validate_populated; eassumption.
    + rewrite lookup_insert_ne by assumption. apply Hw.
  - destruct (decide (oid = id)) as [<-|Hne].
    + rewrite lookup_delete_eq. discriminate.
    + rewrite lookup_delete_ne by assumption. apply Hw.
Qed.

Lemma reachable_populated P w ts : reachable P w ts -> populated w.
Proof.
  induction 1 as [|w ts e r _ IH|w ts1 t ts2 _ IH].
  - intros id c H. simpl in H. rewrite lookup_empty in H. discriminate.
  - exact IH.
  - eapply Turn_populated; [exact IH|apply resume_Turn].
Qed.

Lemma Turn_bucket w w' f :
  Turn w w' -> is_Some (bucket w !! f) -> is_Some (bucket w' !! f).
Proof.
  intros HT Hf. destruct HT; try exact Hf. simpl.
  apply lookup_insert_is_Some.
  destruct (decide (fileName e = f)); auto.
Qed.

Lemma Turn_cards w w' id c c' :
  Turn w w' -> cards w !! id = Some c -> cards w' !! id = Some c' -> c' = c.
Proof.
  intros HT Hc. destruct HT as [|e b|e url|d c2 Hv Hfresh|oid c2 Hc2]; simpl;
    try congruence.
  - destruct (decide (_id c2 = id)) as [<-|Hne]; [congruence|].
    rewrite lookup_insert_ne by assumption. congruence.
  - destruct (decide (oid = id)) as [<-|Hne].
    + rewrite lookup_delete_eq. discriminate.
    + rewrite lookup_delete_ne by assumption. congruence.
Qed.

(** What serving one request at once does to the collection. *)
Lemma handle_cards P e r w :
  cards (snd (handle P e r w)) = cards w \/
  (exists c, cards w !! _id c = None /\
             cards (snd (handle P e r w)) = <[_id c := c]> (cards w)) \/
  (exists oid, cards (snd (handle P e r w)) = delete oid (cards w)).
Proof.
  destruct r as [| |req|id|id]; cbn [handle].
  - now left.
  - rewrite get_guests_list_world. now left.
  - rewrite post_fill_image_eq.
    destruct (ToBoolean (body_name req) && ToBoolean (body_number req));
      [|now left].
    unfold try_catch.
    destruct (workflow_Run P e req w)
      as [err|img s ? ? ? msg ?|img s url err|img s url c ? ? ? ? Hv ? Hfresh];
      simpl; try (now left).
    right. left. exists c.
    destruct (validate_imagePath _ _ _ _ _ _ Hv) as [_ Hid].
    rewrite Hid. now split.
  - destruct (delete_guests_list_world P e id w) as [->|(oid & c & _ & ->)];
      [now left|]. right. right. now exists oid.
  - rewrite get_image_world. now left.
Qed.

(** X1. GET /guests_list, the store answering: 200 with every stored
    record, one entry per record, and nothing else; the empty collection
    gives the empty array. The revisions agree, and the stores are left as
    they were. *)
Theorem guests_list_lists_collection e (w : World) :
  db_result e = Resolves tt ->
  exists l,
    Part000.get_guests_list e w = ({| code := 200; body := CardList l |}, w) /\
    IndexJs.get_guests_list e w = ({| code := 200; body := CardList l |}, w) /\
    length l = size (cards w) /\
    (forall c, In c l <-> exists id, cards w !! id = Some c) /\
    (cards w = ∅ -> l = []).
Proof.
  intros Hdb. exists (map snd (map_to_list (cards w))).
  split; [|split; [|split; [|split]]].
  - unfold Part000.get_guests_list, try_catch, bind.
    now rewrite find_run, Hdb.
  - unfold IndexJs.get_guests_list, try_catch, bind.
    now rewrite find_run, Hdb.
  - rewrite length_map. apply length_map_to_list.
  - intros c. rewrite in_map_iff. split.
    + intros ([id c'] & <- & Hin). exists id.
      apply elem_of_map_to_list, list_elem_of_In, Hin.
    + intros [id Hid]. exists (id, c). split; [reflexivity|].
      apply list_elem_of_In, elem_of_map_to_list, Hid.
  - intros ->. now rewrite map_to_list_empty.
Qed.

Lemma guests_list_lists_collection_witness :
  Part000.get_guests_list exampleEnv initial =
    ({| code := 200; body := CardList [] |}, initial) /\
  exists l,
    Part000.get_guests_list exampleEnv exampleWorld =
      ({| code := 200; body := CardList l |}, exampleWorld) /\
    length l = 1%nat /\ In exampleCard l.
Proof.
  split.
  - destruct (guests_list_lists_collection exampleEnv initial eq_refl)
      as (l & Hrun & _ & _ & _ & Hnil).
    rewrite Hrun, (Hnil eq_refl). reflexivity.
  - destruct (guests_list_lists_collection exampleEnv exampleWorld eq_refl)
      as (l & Hrun & _ & Hlen & Hin & _).
    exists l. split; [exact Hrun|]. split.
    + rewrite Hlen. reflexivity.
    + apply Hin. exists 7. apply lookup_insert_eq.
Defined.

(** X2. When the driver call fails, GET /guests_list and
    DELETE /guests_list/:id of the newer revisions answer 500 with a fixed
    message, while [src/index.js] sends the driver's error message to the
    client; the stores are untouched either way. *)
Theorem driver_failure_bodies P e (id : JsStr) (oid : N) (msg : string)
    (w : World) :
  db_result e = Rejects msg ->
  castObjectId P id = Some oid ->
  Part000.get_guests_list e w =
    ({| code := 500;
        body := StatusMessage "nok" "Failed to fetch guests list" |}, w) /\
  IndexJs.get_guests_list e w =
    ({| code := 500; body := StatusMessage "nok" msg |}, w) /\
  Part000.delete_guests_list P e id w =
    ({| code := 500; body := StatusMessage "nok" "Failed to delete guest" |}, w) /\
  IndexJs.delete_guests_list P e id w =
    ({| code := 500; body := StatusMessage "nok" msg |}, w).
Proof.
  intros Hdb Hid. repeat split.
  - unfold Part000.get_guests_list, try_catch, bind.
    now rewrite find_run, Hdb.
  - unfold IndexJs.get_guests_list, try_catch, bind.
    now rewrite find_run, Hdb.
  - unfold Part000.delete_guests_list, try_catch, bind.
    now rewrite findByIdAndDelete_run, Hid, Hdb.
  - unfold IndexJs.delete_guests_list, try_catch, bind.
    now rewrite findByIdAndDelete_run, Hid, Hdb.
Qed.

Lemma driver_failure_bodies_witness :
  body (fst (IndexJs.get_guests_list exampleEnvDbDown exampleWorld)) =
    StatusMessage "nok" "connection lost" /\
  body (fst (Part000.get_guests_list exampleEnvDbDown exampleWorld)) =
    StatusMessage "nok" "Failed to fetch guests list".
Proof.
  destruct (driver_failure_bodies examplePlatform exampleEnvDbDown exampleId 7
              "connection lost" exampleWorld eq_refl eq_refl)
    as (H0 & H1 & _).
  rewrite H0, H1. split; reflexivity.
Defined.

(** X3. The GET handlers never write: GET /, GET /guests_list and
    GET /get-image/:id leave the bucket, the collection and the history as
    they were, whatever the request and whatever the services answer. *)
Theorem get_requests_read_only P e (id : JsStr) (w : World) :
  snd (Part000.get_root w) = w /\
  snd (Part000.get_guests_list e w) = w /\
  snd (IndexJs.get_guests_list e w) = w /\
  snd (Part000.get_image P e id w) = w /\
  snd (Part001.get_image P e id w) = w.
Proof.
  split; [reflexivity|]. split; [apply get_guests_list_world|].
  split; [|split; [apply get_image_world|]].
  - unfold IndexJs.get_guests_list, try_catch, bind. rewrite find_run.
    destruct (db_result e); reflexivity.
  - unfold Part001.get_image, try_catch, bind. rewrite findById_run.
    destruct (castObjectId P id) as [oid|]; [|reflexivity].
    destruct (db_result e); [|reflexivity].
    destruct (cards w !! oid) as [g|]; [|reflexivity].
    destruct (negb (ToBoolean (JsString (imagePath g)))); reflexivity.
Qed.

(** X4. No request ever removes an object from the bucket: an object name
    that is taken stays taken after any turn of the event loop and after
    any request served at once, DELETE /guests_list/:id included. *)
Theorem bucket_never_shrinks P e (r : Request) (t : Task) (w : World)
    (f : JsStr) :
  is_Some (bucket w !! f) ->
  is_Some (bucket (snd (resume P t w)) !! f) /\
  is_Some (bucket (snd (handle P e r w)) !! f).
Proof.
  intros Hf. split.
  - eapply Turn_bucket; [apply resume_Turn|exact Hf].
  - apply (handle_Turns P (fun w' => is_Some (bucket w' !! f))); [|exact Hf].
    intros w1 w2 H1 HT. eapply Turn_bucket; eassumption.
Qed.

Lemma bucket_never_shrinks_witness :
  is_Some (bucket (snd (Part000.delete_guests_list examplePlatform exampleEnv
                          exampleId exampleWorld)) !! fileName exampleEnv).
Proof.
  apply (bucket_never_shrinks examplePlatform exampleEnv (DeleteGuest exampleId)
           (Arrived exampleEnv GetRoot) exampleWorld (fileName exampleEnv)).
  eexists. apply lookup_insert_eq.
Defined.

(** X5. A stored record is never changed in place: after any turn of the
    event loop, and after any request served at once, the record under an
    id is the one that was there, or none. *)
Theorem records_never_mutated P e (r : Request) (t : Task) (w : World)
    (id : N) (c : Card) :
  cards w !! id = Some c ->
  (forall c', cards (snd (resume P t w)) !! id = Some c' -> c' = c) /\
  (forall c', cards (snd (handle P e r w)) !! id = Some c' -> c' = c).
Proof.
  intros Hc. split; intros c' Hc'.
  - eapply Turn_cards; [apply resume_Turn|eassumption|eassumption].
  - destruct (handle_cards P e r w) as [Heq|[(c2 & Hfresh & Heq)|[oid Heq]]];
      rewrite Heq in Hc'.
    + congruence.
    + destruct (decide (_id c2 = id)) as [<-|Hne]; [congruence|].
      rewrite lookup_insert_ne in Hc' by assumption. congruence.
    + destruct (decide (oid = id)) as [<-|Hne].
      * rewrite lookup_delete_eq in Hc'. discriminate.
      * rewrite lookup_delete_ne in Hc' by assumption. congruence.
Qed.

Lemma records_never_mutated_witness :
  match cards (snd (Part000.post_fill_image examplePlatform exampleEnv2
                      exampleRequest2 exampleWorld)) !! 7 with
  | Some c' => c' = exampleCard
  | None => True
  end.
Proof.
  destruct (cards (snd (Part000.post_fill_image examplePlatform exampleEnv2
                          exampleRequest2 exampleWorld)) !! 7) as [c'|] eqn:E;
    [|exact I].
  apply (proj2 (records_never_mutated examplePlatform exampleEnv2
                  (PostFillImage exampleRequest2) (Arrived exampleEnv GetRoot)
                  exampleWorld 7 exampleCard (lookup_insert_eq _ _ _))).
  exact E.
Defined.

(** X6. In every state the server reaches, each stored record is filed
    under its own [_id] and has a non-empty name, number and imagePath. *)
Theorem stored_records_populated P (w : World) (ts : list Task) (id : N)
    (c : Card) :
  reachable P w ts ->
  cards w !! id = Some c ->
  _id c = id /\ name c <> [] /\ number c <> [] /\ imagePath c <> [].
Proof. intros Hr. apply (reachable_populated P w ts Hr). Qed.

Lemma stored_records_populated_witness :
  _id exampleCard = 7 /\ name exampleCard <> [] /\ number exampleCard <> [] /\
  imagePath exampleCard <> [].
Proof.
  apply (stored_records_populated examplePlatform
           (snd (Part000.post_fill_image examplePlatform exampleEnv
                   exampleRequest initial)) [] 7 exampleCard
           example_reachable).
  rewrite example_run. apply lookup_insert_eq.
Defined.

(** ** GET /get-image/:id *)

Lemma get_image_found P e id oid g w :
  castObjectId P id = Some oid -> db_result e = Resolves tt ->
  cards w !! oid = Some g -> imagePath g <> [] ->
  Part000.get_image P e id w =
  match axios_result e with
  | Rejects msg =>
      ({| code := 500;
          body := StatusMessage "nok" ("Failed to fetch image: " +:+ msg) |}, w)
  | Resolves r =>
      if (resp_status r =? 200)%Z then
        match encodeURIComponent P (name g) with
        | None =>
            ({| code := 500;
                body := StatusMessage "nok"
                          ("Failed to fetch image: "
                           +:+ errorMessage e URIError) |}, w)
        | Some enc =>
            ({| code := 200;
                body := Binary
                  {| contentType := "image/jpeg";
                     contentDisposition :=
                       lit "attachment; filename=" ++ [0x22]
                       ++ asciiFilename (name g) ++ lit ".jpg" ++ [0x22]
                       ++ lit "; filename*=UTF-8''" ++ enc ++ lit ".jpg";
                     allowOrigin := "*" |} (resp_data r) |}, w)
        end
      else
        ({| code := 500;
            body := StatusMessage "nok"
                      ("Failed to fetch image: "
                       +:+ ("Failed to fetch image: "
                            +:+ resp_statusText r)) |}, w)
  end.
Proof.
  intros Hid Hdb Hg Hp.
  unfold Part000.get_image, try_catch, ObjectId_isValid. rewrite Hid.
  cbn [negb]. unfold bind at 1. rewrite findById_run, Hid, Hdb, Hg.
  replace (negb (ToBoolean (JsString (imagePath g)))) with false
    by (destruct (imagePath g); [congruence|reflexivity]).
  unfold bind at 1. destruct (axios_result e) as [r|msg]; cbn [await];
    [|reflexivity].
  unfold ret at 1. destruct (resp_status r =? 200)%Z; cbn [negb];
    [|reflexivity].
  unfold bind. destruct (encodeURIComponent P (name g)); reflexivity.
Qed.

(** X7. GET /get-image/:id for a stored record, the store and the download
    answering with status 200: the answer is 200 with the downloaded bytes,
    content type image/jpeg, and a Content-Disposition that offers the name
    twice, once reduced to printable ASCII and once percent-encoded. In a
    reachable state the "no image path" branch is never taken. *)
Theorem get_image_serves_image P e (id : JsStr) (oid : N) (g : Card)
    (r : HttpResponse) (enc : JsStr) (w : World) (ts : list Task) :
  reachable P w ts ->
  castObjectId P id = Some oid ->
  db_result e = Resolves tt ->
  cards w !! oid = Some g ->
  axios_result e = Resolves r ->
  resp_status r = 200%Z ->
  encodeURIComponent P (name g) = Some enc ->
  Part000.get_image P e id w =
  ({| code := 200;
      body := Binary
        {| contentType := "image/jpeg";
           contentDisposition :=
             lit "attachment; filename=" ++ [0x22]
             ++ asciiFilename (name g) ++ lit ".jpg" ++ [0x22]
             ++ lit "; filename*=UTF-8''" ++ enc ++ lit ".jpg";
           allowOrigin := "*" |} (resp_data r) |}, w).
Proof.
  intros Hr Hid Hdb Hg Hax Hst Henc.
  destruct (reachable_populated P w ts Hr oid g Hg) as (_ & _ & _ & Hp).
  rewrite (get_image_found P e id oid g w Hid Hdb Hg Hp), Hax, Hst, Henc.
  reflexivity.
Qed.

Lemma get_image_serves_image_witness :
  code (fst (Part000.get_image examplePlatform exampleFetchEnv exampleId
               exampleWorld)) = 200%Z.
Proof.
  pose proof example_reachable as Hr. rewrite example_run in Hr.
  rewrite (get_image_serves_image examplePlatform exampleFetchEnv exampleId 7
             exampleCard _ (lit "Sara") exampleWorld [] Hr eq_refl eq_refl
             (lookup_insert_eq _ _ _) eq_refl eq_refl eq_refl).
  reflexivity.
Defined.

(** X8. GET /get-image/:id for a stored record whose download fails: a
    rejected download is answered 500 with "Failed to fetch image: " and
    the reason; a download that resolves with a status other than 200 is
    answered 500 with that prefix twice before the status text; a name
    that cannot be percent-encoded is answered 500 as well. *)
Theorem get_image_download_failures P e (id : JsStr) (oid : N) (g : Card)
    (w : World) :
  castObjectId P id = Some oid ->
  db_result e = Resolves tt ->
  cards w !! oid = Some g ->
  imagePath g <> [] ->
  (forall msg, axios_result e = Rejects msg ->
     Part000.get_image P e id w =
     ({| code := 500;
         body := StatusMessage "nok" ("Failed to fetch image: " +:+ msg) |}, w)) /\
  (forall r, axios_result e = Resolves r -> resp_status r <> 200%Z ->
     Part000.get_image P e id w =
     ({| code := 500;
         body := StatusMessage "nok"
                   ("Failed to fetch image: Failed to fetch image: "
                    +:+ resp_statusText r) |}, w)) /\
  (forall r, axios_result e = Resolves r -> resp_status r = 200%Z ->
     encodeURIComponent P (name g) = None ->
     Part000.get_image P e id w =
     ({| code := 500;
         body := StatusMessage "nok"
                   ("Failed to fetch image: " +:+ errorMessage e URIError) |},
      w)).
Proof.
  intros Hid Hdb Hg Hp.
  rewrite (get_image_found P e id oid g w Hid Hdb Hg Hp).
  split; [|split].
  - intros msg ->. reflexivity.
  - intros r -> Hst. apply Z.eqb_neq in Hst. rewrite Hst. reflexivity.
  - intros r -> -> ->. reflexivity.
Qed.

Lemma get_image_download_failures_witness :
  Part000.get_image examplePlatform exampleEnv exampleId exampleWorld =
  ({| code := 500;
      body := StatusMessage "nok" "Failed to fetch image: unreachable" |},
   exampleWorld).
Proof.
  apply (proj1 (get_image_download_failures examplePlatform exampleEnv
                  exampleId 7 exampleCard exampleWorld eq_refl eq_refl
                  (lookup_insert_eq _ _ _) ltac:(discriminate))).
  reflexivity.
Defined.

(** X9. The ASCII fallback of the file name has the length of the name,
    consists of printable ASCII only, keeps every printable character of
    the name where it was, and is the name itself when the name is
    printable; applying it twice changes nothing more. *)
Theorem asciiFilename_printable (s : JsStr) :
  length (asciiFilename s) = length s /\
  (forall c, In c (asciiFilename s) -> printable c = true) /\
  (forall i c, nth_error s i = Some c -> printable c = true ->
               nth_error (asciiFilename s) i = Some c) /\
  ((forall c, In c s -> printable c = true) -> asciiFilename s = s) /\
  asciiFilename (asciiFilename s) = asciiFilename s.
Proof.
  unfold asciiFilename, printable.
  induction s as [|a s (IH1 & IH2 & IH3 & IH4 & IH5)]; simpl.
  - repeat split; try reflexivity.
    + intros c [].
    + intros [|i] c H; discriminate.
  - split; [now rewrite IH1|].
    split; [|split; [|split]].
    + intros c [<-|Hc]; [|now apply IH2].
      destruct ((0x20 <=? a) && (a <=? 0x7E)) eqn:Ha; [exact Ha|reflexivity].
    + intros [|i] c; simpl.
      * intros H Hc; injection H as ->. now rewrite Hc.
      * apply IH3.
    + intros H. rewrite (H a) by now left. f_equal. apply IH4. auto.
    + rewrite IH5. f_equal.
      destruct ((0x20 <=? a) && (a <=? 0x7E)) eqn:Ha; [now rewrite Ha|reflexivity].
Qed.

Lemma asciiFilename_printable_witness :
  asciiFilename (lit "Sara Lee") = lit "Sara Lee".
Proof.
  apply (proj1 (proj2 (proj2 (proj2 (asciiFilename_printable (lit "Sara Lee")))))).
  intros c Hc. cbv in Hc.
  repeat (destruct Hc as [<-|Hc]; [reflexivity|]). destruct Hc.
Defined.

(** ** Sequences of requests *)

(** X10. Creating a card and then deleting it by its id gives the record
    back in [deletedSample] and restores the collection, but not the
    bucket: the image uploaded for the card stays there. *)
Theorem create_then_delete P e e' (req : FillImageBody) (id : JsStr)
    (w : World) (resp : Response) (w1 : World) :
  Part000.post_fill_image P e req w = (resp, w1) ->
  code resp = 200%Z ->
  castObjectId P id = Some (fresh_id e) ->
  db_result e' = Resolves tt ->
  exists c w2,
    resp = {| code := 200; body := CardBody c |} /\
    Part000.delete_guests_list P e' id w1 =
      ({| code := 200;
          body := Deleted "success" "Record deleted successfully" c |}, w2) /\
    cards w2 = cards w /\
    bucket w2 = bucket w1 /\
    is_Some (bucket w2 !! fileName e).
Proof.
  intros Hrun H200 Hid Hdb.
  destruct (post_fill_image_200 _ _ _ _ _ _ Hrun H200)
    as (img & s & url & c & _ & _ & _ & Hv & Hfresh & -> & ->).
  destruct (validate_imagePath _ _ _ _ _ _ Hv) as [_ Hc].
  exists c. eexists. split; [reflexivity|].
  unfold Part000.delete_guests_list, try_catch, bind.
  rewrite findByIdAndDelete_run, Hid, Hdb. cbn [cards created].
  rewrite Hc, lookup_insert_eq. split; [reflexivity|]. simpl. rewrite ?Hc.
  split; [now apply delete_insert_id|]. split; [reflexivity|].
  eexists. apply lookup_insert_eq.
Qed.

Lemma create_then_delete_witness :
  exists w2,
    Part000.delete_guests_list examplePlatform exampleEnv exampleId exampleWorld =
      ({| code := 200;
          body := Deleted "success" "Record deleted successfully" exampleCard |},
       w2) /\
    cards w2 = ∅ /\ is_Some (bucket w2 !! fileName exampleEnv).
Proof.
  destruct (create_then_delete examplePlatform exampleEnv exampleEnv
              exampleRequest exampleId initial _ _ example_run eq_refl eq_refl
              eq_refl)
    as (c & w2 & Hc & Hdel & Hcards & _ & Hb).
  injection Hc as <-. exists w2. auto.
Defined.

(** X11. Once DELETE /guests_list/:id has gone through for an id, a second
    DELETE for it is answered 404 "Record not found" and
    GET /get-image/:id for it 404 "Guest or image not found". *)
Theorem deleted_record_is_gone P e1 e2 (id : JsStr) (oid : N) (w : World) :
  castObjectId P id = Some oid ->
  db_result e1 = Resolves tt ->
  db_result e2 = Resolves tt ->
  Part000.delete_guests_list P e2 id
    (snd (Part000.delete_guests_list P e1 id w)) =
    ({| code := 404; body := StatusMessage "not found" "Record not found" |},
     snd (Part000.delete_guests_list P e1 id w)) /\
  Part000.get_image P e2 id (snd (Part000.delete_guests_list P e1 id w)) =
    ({| code := 404;
        body := StatusMessage "not found" "Guest or image not found" |},
     snd (Part000.delete_guests_list P e1 id w)).
Proof.
  intros Hid Hdb1 Hdb2.
  assert (Hgone : cards (snd (Part000.delete_guests_list P e1 id w)) !! oid
                  = None).
  { unfold Part000.delete_guests_list, try_catch, bind.
    rewrite findByIdAndDelete_run, Hid, Hdb1.
    destruct (cards w !! oid) eqn:Hc; simpl; [apply lookup_delete_eq|exact Hc]. }
  split.
  - unfold Part000.delete_guests_list at 1, try_catch, bind.
    now rewrite findByIdAndDelete_run, Hid, Hdb2, Hgone.
  - now apply (get_image_absent P e2 id oid).
Qed.

Lemma deleted_record_is_gone_witness :
  code (fst (Part000.get_image examplePlatform exampleFetchEnv exampleId
               (snd (Part000.delete_guests_list examplePlatform exampleEnv
                       exampleId exampleWorld)))) = 404%Z.
Proof.
  rewrite (proj2 (deleted_record_is_gone examplePlatform exampleEnv
                    exampleFetchEnv exampleId 7 exampleWorld eq_refl eq_refl
                    eq_refl)).
  reflexivity.
Defined.

(** X12. After a POST /fill-image answered with 200, GET /guests_list
    lists the new record together with every record that was there before:
    one entry more than the collection had. *)
Theorem created_record_is_listed P e e' (req : FillImageBody) (w : World)
    (resp : Response) (w1 : World) :
  Part000.post_fill_image P e req w = (resp, w1) ->
  code resp = 200%Z ->
  db_result e' = Resolves tt ->
  exists c l,
    body resp = CardBody c /\
    Part000.get_guests_list e' w1 = ({| code := 200; body := CardList l |}, w1) /\
    In c l /\
    (forall c0 id, cards w !! id = Some c0 -> In c0 l) /\
    length l = S (size (cards w)).
Proof.
  intros Hrun H200 Hdb.
  destruct (post_fill_image_200 _ _ _ _ _ _ Hrun H200)
    as (img & s & url & c & _ & _ & _ & Hv & Hfresh & -> & ->).
  destruct (validate_imagePath _ _ _ _ _ _ Hv) as [_ Hc].
  exists c. eexists. split; [reflexivity|]. split.
  { unfold Part000.get_guests_list, try_catch, bind.
    rewrite find_run, Hdb. reflexivity. }
  cbn [cards created issued uploaded]. rewrite Hc. split; [|split].
  - apply in_map_iff. exists (fresh_id e, c). split; [reflexivity|].
    apply list_elem_of_In, elem_of_map_to_list, lookup_insert_eq.
  - intros c0 id H0. apply in_map_iff. exists (id, c0). split; [reflexivity|].
    apply list_elem_of_In, elem_of_map_to_list.
    rewrite lookup_insert_ne by congruence. exact H0.
  - rewrite length_map, length_map_to_list. now apply map_size_insert_None.
Qed.

Lemma created_record_is_listed_witness :
  exists l,
    Part000.get_guests_list exampleEnv exampleWorld =
      ({| code := 200; body := CardList l |}, exampleWorld) /\
    In exampleCard l /\ length l = 1%nat.
Proof.
  destruct (created_record_is_listed examplePlatform exampleEnv exampleEnv
              exampleRequest initial _ _ example_run eq_refl eq_refl)
    as (c & l & Hc & Hl & Hin & _ & Hlen).
  injection Hc as <-. exists l. auto.
Defined.

(** ** Object names *)

Lemma lit_inj s1 s2 : lit s1 = lit s2 -> s1 = s2.
Proof.
  unfold lit. intros H.
  rewrite <- (string_of_list_ascii_of_string s1),
          <- (string_of_list_ascii_of_string s2).
  f_equal. revert H.
  generalize (list_ascii_of_string s1) as l1,
             (list_ascii_of_string s2) as l2.
  induction l1 as [|a l1 IH]; intros [|b l2] H; try discriminate;
    [reflexivity|].
  simpl in H. injection H as Hab Hl. f_equal; [|now apply IH].
  rewrite <- (ascii_N_embedding a), <- (ascii_N_embedding b). now rewrite Hab.
Qed.

Lemma fileName_inj e1 e2 : fileName e1 = fileName e2 -> now e1 = now e2.
Proof.
  unfold fileName. intros H.
  apply app_inv_head, app_inv_tail, lit_inj in H.
  now apply (inj pretty) in H.
Qed.

(** The bucket after a POST /fill-image: as it was, or with the object of
    this request put under its name. *)
Lemma post_fill_image_bucket P e req w :
  bucket (snd (Part000.post_fill_image P e req w)) = bucket w \/
  exists b, bucket (snd (Part000.post_fill_image P e req w))
            = <[fileName e := b]> (bucket w).
Proof.
  rewrite post_fill_image_eq.
  destruct (ToBoolean (body_name req) && ToBoolean (body_number req));
    [|now left].
  unfold try_catch.
  destruct (workflow_Run P e req w); simpl; [now left|right; eauto ..].
Qed.

(** X13. Two uploads in the same millisecond share one object name: when
    two POST /fill-image requests with the same clock reading both end in
    200, both records are stored, and the object that the first record's
    URL was issued for now holds the image of the second request. *)
Theorem same_timestamp_overwrites P e1 e2 (req1 req2 : FillImageBody)
    (w : World) (r1 : Response) (w1 : World) (r2 : Response) (w2 : World) :
  Part000.post_fill_image P e1 req1 w = (r1, w1) ->
  code r1 = 200%Z ->
  Part000.post_fill_image P e2 req2 w1 = (r2, w2) ->
  code r2 = 200%Z ->
  now e1 = now e2 ->
  exists c1 c2 img s,
    body r1 = CardBody c1 /\ body r2 = CardBody c2 /\
    cards w2 !! _id c1 = Some c1 /\ cards w2 !! _id c2 = Some c2 /\
    _id c1 <> _id c2 /\
    In (EvSign (fileName e1) (imagePath c1)) (log w2) /\
    loadImage_result e2 = Resolves img /\
    toStr P (body_name req2) = inr s /\
    bucket w2 !! fileName e1 = Some (composed img s (body_twoNames req2)).
Proof.
  intros Hrun1 H1 Hrun2 H2 Hnow.
  destruct (post_fill_image_200 _ _ _ _ _ _ Hrun1 H1)
    as (img1 & s1 & url1 & c1 & _ & _ & _ & Hv1 & Hfresh1 & -> & ->).
  destruct (post_fill_image_200 _ _ _ _ _ _ Hrun2 H2)
    as (img2 & s2 & url2 & c2 & Himg2 & Hs2 & _ & Hv2 & Hfresh2 & -> & ->).
  destruct (validate_imagePath _ _ _ _ _ _ Hv1) as [Hp1 Hid1].
  destruct (validate_imagePath _ _ _ _ _ _ Hv2) as [Hp2 Hid2].
  assert (Hne : _id c1 <> _id c2).
  { intros Heq. simpl in Hfresh2. rewrite <- Hid2, <- Heq in Hfresh2.
    rewrite lookup_insert_eq in Hfresh2. discriminate. }
  assert (Hf : fileName e2 = fileName e1) by (unfold fileName; now rewrite Hnow).
  exists c1, c2, img2, s2. simpl.
  split; [reflexivity|]. split; [reflexivity|].
  split; [rewrite lookup_insert_ne by congruence; apply lookup_insert_eq|].
  split; [apply lookup_insert_eq|]. split; [exact Hne|].
  split; [rewrite Hp1; auto 10|].
  split; [exact Himg2|]. split; [exact Hs2|].
  rewrite Hf. apply lookup_insert_eq.
Qed.

(** X14. Object names are in one-to-one correspondence with clock
    readings; a POST /fill-image leaves every object uploaded at another
    millisecond as it is. *)
Theorem distinct_timestamps_keep_objects P e1 e2 (req : FillImageBody)
    (w : World) (b : Buffer) :
  now e1 <> now e2 ->
  bucket w !! fileName e1 = Some b ->
  fileName e1 <> fileName e2 /\
  bucket (snd (Part000.post_fill_image P e2 req w)) !! fileName e1 = Some b.
Proof.
  intros Hnow Hb.
  assert (Hne : fileName e1 <> fileName e2)
    by (intros H; now apply fileName_inj in H).
  split; [exact Hne|].
  destruct (post_fill_image_bucket P e2 req w) as [->|[b' ->]]; [exact Hb|].
  rewrite lookup_insert_ne by congruence. exact Hb.
Qed.

Lemma distinct_timestamps_keep_objects_witness :
  bucket (snd (Part000.post_fill_image examplePlatform exampleEnv2
                 exampleRequest2 exampleWorld)) !! fileName exampleEnv =
  Some (composed {| img_width := 1200; img_height := 1600 |} (lit "Sara")
          (JsString (lit "false"))).
Proof.
  apply (distinct_timestamps_keep_objects examplePlatform exampleEnv
           exampleEnv2 exampleRequest2 exampleWorld).
  - discriminate.
  - apply lookup_insert_eq.
Defined.

(** ** The revisions of POST /fill-image *)

(** X15. On a request that passes the presence check, [src/index.js] and
    the newer revisions do the same to the stores and answer with the same
    status; when that status is 200 the answers are equal. *)
Theorem revisions_agree_past_presence_check P e (req : FillImageBody)
    (w : World) :
  ToBoolean (body_name req) = true ->
  ToBoolean (body_number req) = true ->
  snd (IndexJs.post_fill_image P e req w) =
    snd (Part000.post_fill_image P e req w) /\
  code (fst (IndexJs.post_fill_image P e req w)) =
    code (fst (Part000.post_fill_image P e req w)) /\
  (code (fst (Part000.post_fill_image P e req w)) = 200%Z ->
   fst (IndexJs.post_fill_image P e req w) =
     fst (Part000.post_fill_image P e req w)).
Proof.
  intros Hn Hm.
  rewrite post_fill_image_eq, index_post_fill_image_eq, Hn, Hm.
  cbn [andb]. unfold try_catch.
  destruct (workflow P e req w) as [[err|resp] w']; simpl.
  - repeat split. discriminate.
  - repeat split.
Qed.

Lemma revisions_agree_past_presence_check_witness :
  IndexJs.post_fill_image examplePlatform exampleEnv exampleRequest initial =
  (res_json (CardBody exampleCard), exampleWorld).
Proof.
  destruct (revisions_agree_past_presence_check examplePlatform exampleEnv
              exampleRequest initial eq_refl eq_refl) as (Hw & _ & Hr).
  rewrite example_run in Hw, Hr.
  rewrite (surjective_pairing (IndexJs.post_fill_image _ _ _ _)).
  rewrite Hw, (Hr eq_refl). reflexivity.
Defined.

(** X16. In [src/index.js] a request whose name or number is missing,
    null or the empty string is never answered with 400 and never creates
    a record: the answer is 500 "Internal Server Error" and the collection
    is as it was (the bucket may have gained an object). *)
Theorem index_missing_field_is_500 P e (req : FillImageBody) (w : World) :
  absent (body_name req) = true \/ absent (body_number req) = true ->
  fst (IndexJs.post_fill_image P e req w) =
    {| code := 500; body := Text "Internal Server Error" |} /\
  cards (snd (IndexJs.post_fill_image P e req w)) = cards w.
Proof.
  intros Hbad. rewrite index_post_fill_image_eq. unfold try_catch.
  destruct (workflow_Run P e req w)
    as [err|img s ? ? ? msg ?|img s url err|img s url c ? ? ? ? Hv];
    simpl; try (split; reflexivity).
  exfalso. unfold validate, SampleModel in Hv.
  cbn [doc_name doc_number doc_imagePath doc_id] in Hv.
  destruct Hbad as [Hb|Hb].
  - destruct (body_name req) as [| |?|?|[|? ?]|?]; discriminate.
  - destruct (required (castString P (body_name req))); [|discriminate].
    destruct (body_number req) as [| |?|?|[|? ?]|?]; discriminate.
Qed.

Lemma index_missing_field_is_500_witness :
  code (fst (IndexJs.post_fill_image examplePlatform exampleEnv
               {| body_name := JsString (lit "Sara");
                  body_number := JsUndefined;
                  body_twoNames := JsUndefined |} initial)) = 500%Z.
Proof.
  rewrite (proj1 (index_missing_field_is_500 examplePlatform exampleEnv
                    {| body_name := JsString (lit "Sara");
                       body_number := JsUndefined;
                       body_twoNames := JsUndefined |} initial
                    (or_intror eq_refl))).
  reflexivity.
Defined.

Lemma example_run_same_ms :
  Part000.post_fill_image examplePlatform exampleEnvSameMs exampleRequest2
    exampleWorld =
  (res_json (CardBody {| _id := 8; name := [0x633; 0x627; 0x631; 0x629];
                         number := lit "13";
                         imagePath :=
                           lit "https://storage.googleapis.com/x?sig=2" |}),
   created {| _id := 8; name := [0x633; 0x627; 0x631; 0x629];
              number := lit "13";
              imagePath := lit "https://storage.googleapis.com/x?sig=2" |}
     (issued exampleEnvSameMs (lit "https://storage.googleapis.com/x?sig=2")
        (uploaded exampleEnvSameMs
           (composed {| img_width := 1200; img_height := 1600 |}
              [0x633; 0x627; 0x631; 0x629] (JsBool true)) exampleWorld))).
Proof.
  apply (post_fill_image_succeeds examplePlatform exampleEnvSameMs
           [0x633; 0x627; 0x631; 0x629] (lit "13") (JsBool true) exampleWorld);
    try discriminate; reflexivity.
Defined.

Lemma same_timestamp_overwrites_witness :
  exists s,
    bucket (snd (Part000.post_fill_image examplePlatform exampleEnvSameMs
                   exampleRequest2 exampleWorld)) !! fileName exampleEnv =
    Some (composed {| img_width := 1200; img_height := 1600 |} s (JsBool true)) /\
    s <> lit "Sara".
Proof.
  destruct (same_timestamp_overwrites examplePlatform exampleEnv
              exampleEnvSameMs exampleRequest exampleRequest2 initial
              _ _ _ _ example_run eq_refl example_run_same_ms eq_refl eq_refl)
    as (c1 & c2 & img & s & _ & _ & _ & _ & _ & _ & Himg & Hs & Hb).
  cbn in Himg, Hs.
  assert (Eimg : img = {| img_width := 1200; img_height := 1600 |})
    by congruence.
  assert (Es : s = [0x633; 0x627; 0x631; 0x629]) by congruence.
  subst img s. exists [0x633; 0x627; 0x631; 0x629]. split; [|discriminate].
  rewrite example_run_same_ms. exact Hb.
Defined.

(** ** Outcomes of POST /fill-image *)

(** X17. POST /fill-image goes through whenever it can: with a non-empty
    string name and number, the template, the upload, the signing and the
    driver answering, a non-empty URL and an unused id, every revision
    answers 200 with the new record, after storing the image, then the
    record. *)
Theorem fill_image_succeeds P e (n m : JsStr) (twoNames : JsValue) (w : World)
    (template : Image) (url : JsStr) :
  n <> [] -> m <> [] -> url <> [] ->
  loadImage_result e = Resolves template ->
  file_save_result e = Resolves tt ->
  getSignedUrl_result e = Resolves url ->
  db_result e = Resolves tt ->
  cards w !! fresh_id e = None ->
  let req := {| body_name := JsString n; body_number := JsString m;
                body_twoNames := twoNames |} in
  let c := {| _id := fresh_id e; name := n; number := m; imagePath := url |} in
  let w' := {| bucket := <[fileName e := composed template n twoNames]> (bucket w);
               cards := <[fresh_id e := c]> (cards w);
               log := EvCreate c :: EvSign (fileName e) url
                        :: EvUpload (fileName e) :: log w |} in
  Part000.post_fill_image P e req w = ({| code := 200; body := CardBody c |}, w') /\
  IndexJs.post_fill_image P e req w = ({| code := 200; body := CardBody c |}, w').
Proof.
  intros Hn Hm Hu Himg Hsave Hurl Hdb Hfresh req c w'. split.
  - apply (post_fill_image_succeeds P e n m twoNames w template url);
      assumption.
  - rewrite index_post_fill_image_eq. unfold try_catch. subst req.
    rewrite (workflow_succeeds P e n m twoNames w template url); auto.
Qed.

Lemma fill_image_succeeds_witness :
  fst (IndexJs.post_fill_image examplePlatform exampleEnv2 exampleRequest2
         initial) =
  {| code := 200;
     body := CardBody {| _id := 8; name := [0x633; 0x627; 0x631; 0x629];
                         number := lit "13";
                         imagePath :=
                           lit "https://storage.googleapis.com/y?sig=2" |} |}.
Proof.
  unfold exampleRequest2.
  rewrite (proj2 (fill_image_succeeds examplePlatform exampleEnv2
                    [0x633; 0x627; 0x631; 0x629] (lit "13") (JsBool true)
                    initial {| img_width := 1200; img_height := 1600 |}
                    (lit "https://storage.googleapis.com/y?sig=2")
                    ltac:(discriminate) ltac:(discriminate)
                    ltac:(discriminate) eq_refl eq_refl eq_refl eq_refl
                    eq_refl)).
  reflexivity.
Defined.

Lemma workflow_no_trace P e req w :
  (exists msg, loadImage_result e = Rejects msg) \/
  (exists err, toStr P (body_name req) = inl err) \/
  (exists msg, file_save_result e = Rejects msg) ->
  exists err, workflow P e req w = (inl err, w).
Proof.
  intros Hfail. rewrite workflow_turns. unfold bind at 1 2.
  destruct (loadImage_result e) as [img|msg0] eqn:Himg; cbn [await];
    [|eexists; reflexivity].
  unfold ret at 1. rewrite compose_eq.
  destruct (toStr P (body_name req)) as [err0|s] eqn:Hs;
    [eexists; reflexivity|].
  unfold bind at 1. rewrite file_save_run.
  destruct (file_save_result e) as [[]|msg0] eqn:Hsave;
    [|eexists; reflexivity].
  destruct Hfail as [[msg H]|[[err H]|[msg H]]]; discriminate.
Qed.

(** X18. A POST /fill-image that fails before or at the upload (the
    template cannot be loaded, the name cannot be converted to a string,
    or the upload is rejected) is answered 500 and leaves no trace in the
    bucket, the collection or the history. *)
Theorem failure_before_upload_leaves_no_trace P e (req : FillImageBody)
    (w : World) :
  ToBoolean (body_name req) = true ->
  ToBoolean (body_number req) = true ->
  (exists msg, loadImage_result e = Rejects msg) \/
  (exists err, toStr P (body_name req) = inl err) \/
  (exists msg, file_save_result e = Rejects msg) ->
  Part000.post_fill_image P e req w =
    ({| code := 500; body := StatusMessage "nok" "Failed to create image" |}, w) /\
  IndexJs.post_fill_image P e req w =
    ({| code := 500; body := Text "Internal Server Error" |}, w).
Proof.
  intros Hn Hm Hfail.
  destruct (workflow_no_trace P e req w Hfail) as [err Hw].
  rewrite post_fill_image_eq, index_post_fill_image_eq, Hn, Hm.
  unfold try_catch. cbn [andb]. rewrite Hw. split; reflexivity.
Qed.

Lemma failure_before_upload_leaves_no_trace_witness :
  Part000.post_fill_image examplePlatform exampleEnv
    {| body_name := JsObject {| obj_toString := None; obj_cast := None |};
       body_number := JsString (lit "5"); body_twoNames := JsUndefined |}
    exampleWorld =
  ({| code := 500; body := StatusMessage "nok" "Failed to create image" |},
   exampleWorld).
Proof.
  apply (proj1 (failure_before_upload_leaves_no_trace examplePlatform
                  exampleEnv
                  {| body_name :=
                       JsObject {| obj_toString := None; obj_cast := None |};
                     body_number := JsString (lit "5");
                     body_twoNames := JsUndefined |}
                  exampleWorld eq_refl eq_refl
                  (or_intror (or_introl (ex_intro _ TypeError eq_refl))))).
Defined.

(** X19. A POST /fill-image whose upload succeeds and whose URL signing is
    rejected is answered 500 and leaves the uploaded object in the bucket
    with no record: the collection is unchanged and the history gains the
    upload only. *)
Theorem signing_failure_leaves_orphan P e (req : FillImageBody) (w : World)
    (template : Image) (s : JsStr) (msg : string) :
  ToBoolean (body_name req) = true ->
  ToBoolean (body_number req) = true ->
  loadImage_result e = Resolves template ->
  toStr P (body_name req) = inr s ->
  file_save_result e = Resolves tt ->
  getSignedUrl_result e = Rejects msg ->
  Part000.post_fill_image P e req w =
  ({| code := 500; body := StatusMessage "nok" "Failed to create image" |},
   {| bucket := <[fileName e := composed template s (body_twoNames req)]>
                  (bucket w);
      cards := cards w;
      log := EvUpload (fileName e) :: log w |}).
Proof.
  intros Hn Hm Himg Hs Hsave Hurl.
  rewrite post_fill_image_eq, Hn, Hm. cbn [andb].
  unfold try_catch. rewrite workflow_turns. unfold bind at 1 2.
  rewrite Himg. cbn [await]. unfold ret at 1. rewrite compose_eq, Hs.
  unfold bind at 1. rewrite file_save_run, Hsave.
  unfold bind at 1. rewrite getSignedUrl_run, Hurl. reflexivity.
Qed.

Lemma signing_failure_leaves_orphan_witness :
  let r := Part000.post_fill_image examplePlatform exampleEnvUnsigned
             exampleRequest initial in
  code (fst r) = 500%Z /\ cards (snd r) = ∅ /\
  is_Some (bucket (snd r) !! fileName exampleEnvUnsigned).
Proof.
  intros r. subst r.
  rewrite (signing_failure_leaves_orphan examplePlatform exampleEnvUnsigned
             exampleRequest initial {| img_width := 1200; img_height := 1600 |}
             (lit "Sara") "permission denied" eq_refl eq_refl eq_refl eq_refl
             eq_refl eq_refl).
  split; [reflexivity|]. split; [reflexivity|].
  eexists. apply lookup_insert_eq.
Defined.

(** ** Startup *)

Lemma replace_backslash_n_app_aux n : forall a b,
  (length a <= n)%nat ->
  replace_backslash_n (a ++ 0x5C :: 0x6E :: b) =
  replace_backslash_n a ++ 0x0A :: replace_backslash_n b.
Proof.
  induction n as [|n IH]; intros a b Hlen.
  - destruct a; [reflexivity|simpl in Hlen; lia].
  - destruct a as [|c [|d a]]; [reflexivity| |].
    + simpl. destruct (c =? 0x5C); reflexivity.
    + simpl in Hlen. cbn [app]. cbn [replace_backslash_n].
      destruct ((c =? 0x5C) && (d =? 0x6E)).
      * cbn [app]. f_equal. apply IH. lia.
      * cbn [app]. f_equal.
        apply (IH (d :: a) b). simpl. lia.
Qed.

Lemma replace_backslash_n_head c s :
  exists x r, replace_backslash_n (c :: s) = x :: r /\ (x = c \/ x = 0x0A).
Proof.
  destruct s as [|d s]; simpl; [eauto|].
  destruct ((c =? 0x5C) && (d =? 0x6E)); eauto.
Qed.

Lemma has_escape_cons x y r :
  has_escape (x :: y :: r) = ((x =? 0x5C) && (y =? 0x6E)) || has_escape (y :: r).
Proof. reflexivity. Qed.

Lemma replace_backslash_n_cons c d s :
  replace_backslash_n (c :: d :: s) =
  if (c =? 0x5C) && (d =? 0x6E) then 0x0A :: replace_backslash_n s
  else c :: replace_backslash_n (d :: s).
Proof. reflexivity. Qed.

Lemma replace_backslash_n_clean_aux n : forall s,
  (length s <= n)%nat -> has_escape (replace_backslash_n s) = false.
Proof.
  induction n as [|n IH]; intros s Hlen.
  - destruct s; [reflexivity|simpl in Hlen; lia].
  - destruct s as [|c [|d s]]; [reflexivity|reflexivity|].
    simpl in Hlen. rewrite replace_backslash_n_cons.
    destruct ((c =? 0x5C) && (d =? 0x6E)) eqn:Hcd.
    + pose proof (IH s ltac:(lia)) as Hs.
      destruct (replace_backslash_n s) as [|y r]; [reflexivity|].
      rewrite has_escape_cons, Hs. reflexivity.
    + pose proof (IH (d :: s) ltac:(simpl; lia)) as Hs.
      destruct (replace_backslash_n_head d s) as (x & r & Hx & Hcase).
      rewrite Hx in *. rewrite has_escape_cons, Hs, orb_false_r.
      destruct Hcase as [->| ->].
      * exact Hcd.
      * apply andb_false_r.
Qed.

Lemma replace_backslash_n_length_aux n : forall s,
  (length s <= n)%nat ->
  (length (replace_backslash_n s) <= length s)%nat /\
  (has_escape s = false -> replace_backslash_n s = s).
Proof.
  induction n as [|n IH]; intros s Hlen.
  - destruct s; [split; [reflexivity|reflexivity]|simpl in Hlen; lia].
  - destruct s as [|c [|d s]]; [now split|now split|].
    simpl in Hlen. rewrite has_escape_cons, replace_backslash_n_cons.
    destruct ((c =? 0x5C) && (d =? 0x6E)).
    + split; [|discriminate].
      destruct (IH s ltac:(lia)) as [Hl _]. simpl. lia.
    + destruct (IH (d :: s) ltac:(simpl; lia)) as [Hl Hid].
      split; [simpl length in *; lia|].
      intros He. rewrite orb_false_l in He. now rewrite Hid.
Qed.

(** X20. Unescaping the private key: every backslash-n of the variable
    becomes one line feed, piece by piece from the left; no backslash-n is
    left in the result; a key without one is unchanged; the result is never
    longer than the input. *)
Theorem replace_backslash_n_spec (a b : JsStr) :
  replace_backslash_n (a ++ [0x5C; 0x6E] ++ b) =
    replace_backslash_n a ++ [0x0A] ++ replace_backslash_n b /\
  has_escape (replace_backslash_n a) = false /\
  (length (replace_backslash_n a) <= length a)%nat /\
  (has_escape a = false -> replace_backslash_n a = a).
Proof.
  split; [apply (replace_backslash_n_app_aux (length a)); lia|].
  split; [apply (replace_backslash_n_clean_aux (length a)); lia|].
  apply (replace_backslash_n_length_aux (length a)). lia.
Qed.

Lemma replace_backslash_n_spec_witness :
  replace_backslash_n (lit "MIIE") = lit "MIIE".
Proof.
  apply (proj2 (proj2 (proj2 (replace_backslash_n_spec (lit "MIIE") [])))).
  reflexivity.
Defined.

(** X21. The credentials are built at load time, and only the private key
    is indispensable: without GOOGLE_PRIVATE_KEY the module fails with a
    TypeError; with it the credentials are built whatever else is missing,
    the key unescaped and each of the ten other fields read from its own
    variable: the variable's value, or undefined when it is not set. *)
Theorem serviceAccount_requires_private_key (env : ProcessEnv) :
  (env !! "GOOGLE_PRIVATE_KEY" = None <-> serviceAccount env = inl TypeError) /\
  (forall key, env !! "GOOGLE_PRIVATE_KEY" = Some key ->
     exists sa,
       serviceAccount env = inr sa /\
       private_key sa = JsString (replace_backslash_n key) /\
       has_escape (replace_backslash_n key) = false /\
       type sa = getenv env "GOOGLE_TYPE" /\
       project_id sa = getenv env "GOOGLE_PROJECT_ID" /\
       private_key_id sa = getenv env "GOOGLE_PRIVATE_KEY_ID" /\
       client_email sa = getenv env "GOOGLE_CLIENT_EMAIL" /\
       client_id sa = getenv env "GOOGLE_CLIENT_ID" /\
       auth_uri sa = getenv env "GOOGLE_AUTH_URI" /\
       token_uri sa = getenv env "GOOGLE_TOKEN_URI" /\
       auth_provider_x509_cert_url sa =
         getenv env "GOOGLE_AUTH_PROVIDER_CERT_URL" /\
       client_x509_cert_url sa = getenv env "GOOGLE_CLIENT_CERT_URL" /\
       universe_domain sa = getenv env "GOOGLE_UNIVERSE_DOMAIN") /\
  (forall k, env !! k = None -> getenv env k = JsUndefined) /\
  (forall k v, env !! k = Some v -> getenv env k = JsString v).
Proof.
  split; [|split; [|split]].
  - unfold serviceAccount.
    destruct (env !! "GOOGLE_PRIVATE_KEY"); split; intros H;
      try discriminate; reflexivity.
  - intros key Hkey. unfold serviceAccount. rewrite Hkey.
    eexists. split; [reflexivity|]. cbn.
    split; [reflexivity|].
    split; [apply (replace_backslash_n_clean_aux (length key)); lia|].
    repeat split.
  - intros k Hk. unfold getenv. now rewrite Hk.
  - intros k v Hk. unfold getenv. now rewrite Hk.
Qed.

Lemma serviceAccount_requires_private_key_witness :
  exists sa,
    serviceAccount exampleProcessEnv = inr sa /\
    private_key sa =
      JsString (lit "-----BEGIN-----" ++ [0x0A] ++ lit "MIIE" ++ [0x0A]
                ++ lit "-----END-----") /\
    type sa = JsString (lit "service_account") /\
    client_email sa = JsUndefined.
Proof.
  destruct (proj1 (proj2 (serviceAccount_requires_private_key
                            exampleProcessEnv)) _ eq_refl)
    as (sa & Hsa & Hk & _ & Hty & _ & _ & Hmail & _).
  exists sa. split; [exact Hsa|]. split; [exact Hk|].
  split; [rewrite Hty; reflexivity|]. rewrite Hmail. reflexivity.
Defined.

Lemma connectWithRetry_counts (fails rest : list (Outcome unit)) :
  forallb is_rejection fails = true ->
  connects (connectWithRetry (fails ++ Resolves tt :: rest)) = S (length fails) /\
  waited (connectWithRetry (fails ++ Resolves tt :: rest)) =
    (5000 * Z.of_nat (length fails))%Z /\
  List.last (connectWithRetry (fails ++ Resolves tt :: rest)) Connect = LogConnected /\
  connects (connectWithRetry fails) = S (length fails) /\
  List.last (connectWithRetry fails) LogConnected = Connect /\
  connects (connect_once (fails ++ Resolves tt :: rest)) = 1%nat /\
  waited (connect_once (fails ++ Resolves tt :: rest)) = 0%Z.
Proof.
  intros Hf.
  assert (Honce : connects (connect_once (fails ++ Resolves tt :: rest)) = 1%nat /\
                  waited (connect_once (fails ++ Resolves tt :: rest)) = 0%Z).
  { destruct fails as [|[[]|msg] fails]; simpl; auto. }
  induction fails as [|[[]|msg] fails IH]; try discriminate.
  - simpl. repeat split; apply Honce.
  - simpl in Hf.
    assert (Honce' : connects (connect_once (fails ++ Resolves tt :: rest)) = 1%nat /\
                     waited (connect_once (fails ++ Resolves tt :: rest)) = 0%Z).
    { destruct fails as [|[[]|msg'] fails]; simpl; auto. }
    destruct (IH Hf Honce') as (H1 & H2 & H3 & H4 & H5 & _).
    cbn [app connectWithRetry length].
    split; [unfold connects in *; simpl; now rewrite H1|].
    split; [unfold waited in *; cbn [fold_right]; rewrite H2; lia|].
    split.
    { change (List.last (Connect :: LogError msg :: SetTimeout 5000
                      :: connectWithRetry (fails ++ Resolves tt :: rest)) Connect)
        with (List.last (SetTimeout 5000
                      :: connectWithRetry (fails ++ Resolves tt :: rest)) Connect).
      destruct (connectWithRetry (fails ++ Resolves tt :: rest)) eqn:E;
        [destruct fails as [|[[]|?] ?]; discriminate|exact H3]. }
    split; [unfold connects in *; simpl; now rewrite H4|].
    split; [|apply Honce].
    change (List.last (Connect :: LogError msg :: SetTimeout 5000
                    :: connectWithRetry fails) LogConnected)
      with (List.last (SetTimeout 5000 :: connectWithRetry fails) LogConnected).
    destruct (connectWithRetry fails) eqn:E;
      [destruct fails as [|[[]|?] ?]; discriminate|exact H5].
Qed.

(** X22. The newer revisions keep trying to connect: while the driver
    rejects, each failure is logged with its reason and followed by a new
    attempt five seconds later, without limit; the first success is logged
    and ends it. With n failures first the trace is n times
    (connect, log the error, set a 5000 ms timer) and then the last
    attempt: n + 1 attempts and 5000 n milliseconds of requested delay.
    [src/index.js] tries once, logs the outcome and sets no timer. *)
Theorem connectWithRetry_keeps_trying (fails rest : list (Outcome unit)) :
  forallb is_rejection fails = true ->
  connects (connectWithRetry (fails ++ Resolves tt :: rest)) = S (length fails) /\
  waited (connectWithRetry (fails ++ Resolves tt :: rest)) =
    (5000 * Z.of_nat (length fails))%Z /\
  List.last (connectWithRetry (fails ++ Resolves tt :: rest)) Connect = LogConnected /\
  connects (connectWithRetry fails) = S (length fails) /\
  List.last (connectWithRetry fails) LogConnected = Connect /\
  connects (connect_once (fails ++ Resolves tt :: rest)) = 1%nat /\
  waited (connect_once (fails ++ Resolves tt :: rest)) = 0%Z /\
  length (rejection_messages fails) = length fails /\
  connectWithRetry (fails ++ Resolves tt :: rest) =
    List.flat_map failed_attempt (rejection_messages fails)
    ++ [Connect; LogConnected] /\
  connectWithRetry fails =
    List.flat_map failed_attempt (rejection_messages fails) ++ [Connect] /\
  connect_once (fails ++ Resolves tt :: rest) =
    match rejection_messages fails with
    | [] => [Connect; LogConnected]
    | msg :: _ => [Connect; LogError msg]
    end.
Proof.
  intros Hf.
  destruct (connectWithRetry_counts fails rest Hf)
    as (H1 & H2 & H3 & H4 & H5 & H6 & H7).
  repeat (split; [assumption|]).
  clear H1 H2 H3 H4 H5 H6 H7.
  split; [|split; [|split]].
  - induction fails as [|[[]|msg] fails IH]; try discriminate;
      [reflexivity|]. simpl. f_equal. now apply IH.
  - induction fails as [|[[]|msg] fails IH]; try discriminate;
      [reflexivity|]. simpl. do 3 f_equal. now apply IH.
  - induction fails as [|[[]|msg] fails IH]; try discriminate;
      [reflexivity|]. simpl. do 3 f_equal. now apply IH.
  - destruct fails as [|[[]|msg] fails]; try discriminate; reflexivity.
Qed.

Lemma connectWithRetry_keeps_trying_witness :
  connects (connectWithRetry
              [Rejects "ECONNREFUSED"; Rejects "ETIMEDOUT"; Resolves tt]) = 3%nat /\
  waited (connectWithRetry
            [Rejects "ECONNREFUSED"; Rejects "ETIMEDOUT"; Resolves tt]) = 10000%Z /\
  connectWithRetry [Rejects "ECONNREFUSED"; Rejects "ETIMEDOUT"; Resolves tt] =
    [Connect; LogError "ECONNREFUSED"; SetTimeout 5000;
     Connect; LogError "ETIMEDOUT"; SetTimeout 5000;
     Connect; LogConnected].
Proof.
  destruct (connectWithRetry_keeps_trying
              [Rejects "ECONNREFUSED"; Rejects "ETIMEDOUT"] [] eq_refl)
    as (H1 & H2 & _ & _ & _ & _ & _ & _ & H9 & _).
  split; [exact H1|]. split; [exact H2|exact H9].
Defined.

(** ** More on the classifier and the compositor *)

(** X23. The classifier works character by character: a string made of
    two non-empty parts is Latin exactly when both parts are, and two
    Latin names joined by a space are Latin. *)
Theorem languageRegex_test_app (s t : JsStr) :
  s <> [] -> t <> [] ->
  languageRegex_test (s ++ t) = languageRegex_test s && languageRegex_test t /\
  (languageRegex_test s = true -> languageRegex_test t = true ->
   languageRegex_test (s ++ [0x20] ++ t) = true).
Proof.
  intros Hs Ht. rewrite !languageRegex_test_forallb, !forallb_app.
  destruct s as [|a s]; [congruence|]. destruct t as [|b t]; [congruence|].
  cbn [app length negb N.of_nat N.eqb andb].
  replace (N.of_nat (S (length (s ++ b :: t))) =? 0) with false
    by (symmetry; apply N.eqb_neq; lia).
  replace (N.of_nat (S (length s)) =? 0) with false
    by (symmetry; apply N.eqb_neq; lia).
  replace (N.of_nat (S (length t)) =? 0) with false
    by (symmetry; apply N.eqb_neq; lia).
  replace (N.of_nat (S (length (s ++ [0x20] ++ b :: t))) =? 0) with false
    by (symmetry; apply N.eqb_neq; lia).
  cbn [negb andb]. split; [reflexivity|].
  intros -> ->. reflexivity.
Qed.

Lemma languageRegex_test_app_witness :
  languageRegex_test (lit "Sara" ++ [0x20] ++ lit "Lee") = true.
Proof.
  apply (proj2 (languageRegex_test_app (lit "Sara") (lit "Lee")
                  ltac:(discriminate) ltac:(discriminate)));
    reflexivity.
Defined.

(** X24. Whatever the name, once it converts to a string the compositor
    paints the template as background on a canvas of its size and draws the
    name once, at size 26, in #7d5438, centred on its anchor with a middle
    baseline; the font is the Latin one exactly when the classifier accepts
    the string, so a name with a character outside the class (a digit, an
    Arabic letter, punctuation) is drawn with the Arabic font. *)
Theorem non_latin_name_uses_arabic_font P (template : Image)
    (name twoNames : JsValue) (w : World) (s : JsStr) :
  toStr P name = inr s ->
  exists b t,
    compose P template name twoNames w = (inr b, w) /\
    width b = img_width template /\ height b = img_height template /\
    background b = Some template /\
    drawn b = [t] /\ dt_text t = s /\
    dt_font t = (if languageRegex_test s then "26px EnglishFont"
                 else "26px ArabicFont") /\
    dt_fillStyle t = "#7d5438" /\
    dt_textAlign t = "center" /\ dt_textBaseline t = "middle" /\
    font b = dt_font t /\ fillStyle b = "#7d5438" /\
    textAlign b = "center" /\ textBaseline b = "middle" /\
    (forall c, In c s -> isLatinLetter c = false -> isWhiteSpace c = false ->
               dt_font t = "26px ArabicFont").
Proof.
  intros Hs.
  exists (composed template s twoNames). eexists.
  rewrite compose_eq, Hs. split; [reflexivity|].
  unfold composed. cbn.
  do 13 (split; [reflexivity|]).
  intros c Hc Hl Hw.
  destruct (languageRegex_test s) eqn:E; [|reflexivity].
  apply languageRegex_test_true in E as [_ E].
  specialize (E c Hc). unfold latinOrSpace in E.
  rewrite Hl, Hw in E. discriminate.
Qed.

Lemma non_latin_name_uses_arabic_font_witness :
  exists b t,
    compose examplePlatform {| img_width := 1200; img_height := 1600 |}
      (JsString (lit "Sara2")) JsUndefined initial = (inr b, initial) /\
    drawn b = [t] /\ dt_font t = "26px ArabicFont" /\
    dt_fillStyle t = "#7d5438".
Proof.
  destruct (non_latin_name_uses_arabic_font examplePlatform
              {| img_width := 1200; img_height := 1600 |}
              (JsString (lit "Sara2")) JsUndefined initial (lit "Sara2")
              eq_refl)
    as (b & t & Hrun & _ & _ & _ & Hd & _ & _ & Hc & _ & _ & _ & _ & _ & _ & Hf).
  exists b, t. split; [exact Hrun|]. split; [exact Hd|].
  split; [|exact Hc].
  apply (Hf 0x32); [cbv; tauto|reflexivity|reflexivity].
Defined.

(** ** Requests in flight together *)

(** What a turn of a fill-image request does: it may put one object under
    the request's name and one record under the request's id, and what it
    answers depends on the stores only through that id being taken. *)
Lemma fill_turn_shape P t e :
  fill_task t = Some e ->
  exists (up : option Buffer) (cr : option Card),
  forall w,
    bucket (snd (resume P t w)) =
      match up with
      | Some b => <[fileName e := b]> (bucket w)
      | None => bucket w
      end /\
    cards (snd (resume P t w)) =
      match cr, cards w !! fresh_id e with
      | Some c, None => <[fresh_id e := c]> (cards w)
      | _, _ => cards w
      end /\
    forall w2, cards w !! fresh_id e = cards w2 !! fresh_id e ->
               fst (resume P t w) = fst (resume P t w2).
Proof.
  destruct t as [e0 r|e0 req b|e0 req|e0 req url]; cbn [fill_task].
  - destruct r as [| |req|id|id]; try discriminate.
    intros H; injection H as ->. exists None, None. intros w.
    cbn [resume].
    destruct (negb _ || negb _); [repeat split|].
    unfold bind. destruct (loadImage_result e) as [img|msg]; [|repeat split].
    cbn [await ret]. rewrite compose_eq.
    split; [|split].
    + destruct (toStr P (body_name req)); reflexivity.
    + destruct (toStr P (body_name req)); reflexivity.
    + intros w2 _. rewrite compose_eq.
      destruct (toStr P (body_name req)); reflexivity.
  - intros H; injection H as ->. cbn [resume].
    destruct (file_save_result e) as [[]|msg] eqn:Hsave.
    + exists (Some b), None. intros w. rewrite file_save_run, Hsave.
      repeat split. intros w2 _. now rewrite file_save_run, Hsave.
    + exists None, None. intros w. rewrite file_save_run, Hsave.
      repeat split. intros w2 _. now rewrite file_save_run, Hsave.
  - intros H; injection H as ->. cbn [resume]. exists None, None. intros w.
    rewrite getSignedUrl_run.
    destruct (getSignedUrl_result e) as [url|msg] eqn:Hurl; repeat split;
      intros w2 _; now rewrite getSignedUrl_run, Hurl.
  - intros H; injection H as ->. cbn [resume]. unfold bind.
    destruct (validate (SampleModel P e (body_name req) (body_number req)
                          (JsString url))) as [c|] eqn:Hv.
    + destruct (validate_imagePath _ _ _ _ _ _ Hv) as [_ Hid].
      destruct (db_result e) as [[]|msg] eqn:Hdb.
      * exists None, (Some c). intros w. rewrite save_run, Hv, Hdb, Hid.
        split; [destruct (cards w !! fresh_id e); reflexivity|].
        split.
        { destruct (cards w !! fresh_id e); [reflexivity|].
          simpl. now rewrite Hid. }
        intros w2 Heq. rewrite save_run, Hv, Hdb, Hid, <- Heq.
        destruct (cards w !! fresh_id e); reflexivity.
      * exists None, None. intros w. rewrite save_run, Hv, Hdb.
        repeat split. intros w2 _. now rewrite save_run, Hv, Hdb.
    + exists None, None. intros w. rewrite save_run, Hv.
      repeat split. intros w2 _. now rewrite save_run, Hv.
Qed.

(** X25. Fill-image requests in flight together do not disturb each other
    when they differ in clock reading and in id: the turns of two such
    requests can be taken in either order, with the same answers or next
    steps, the same bucket and the same collection. *)
Theorem fill_turns_commute P (t1 t2 : Task) e1 e2 (w : World) :
  fill_task t1 = Some e1 ->
  fill_task t2 = Some e2 ->
  now e1 <> now e2 ->
  fresh_id e1 <> fresh_id e2 ->
  fst (resume P t1 (snd (resume P t2 w))) = fst (resume P t1 w) /\
  fst (resume P t2 (snd (resume P t1 w))) = fst (resume P t2 w) /\
  bucket (snd (resume P t1 (snd (resume P t2 w)))) =
    bucket (snd (resume P t2 (snd (resume P t1 w)))) /\
  cards (snd (resume P t1 (snd (resume P t2 w)))) =
    cards (snd (resume P t2 (snd (resume P t1 w)))).
Proof.
  intros H1 H2 Hnow Hid.
  assert (Hf : fileName e1 <> fileName e2)
    by (intros H; now apply fileName_inj in H).
  destruct (fill_turn_shape P t1 e1 H1) as (up1 & cr1 & S1).
  destruct (fill_turn_shape P t2 e2 H2) as (up2 & cr2 & S2).
  assert (L12 : cards (snd (resume P t2 w)) !! fresh_id e1
                = cards w !! fresh_id e1).
  { rewrite (proj1 (proj2 (S2 w))).
    destruct cr2, (cards w !! fresh_id e2); try reflexivity.
    now apply lookup_insert_ne. }
  assert (L21 : cards (snd (resume P t1 w)) !! fresh_id e2
                = cards w !! fresh_id e2).
  { rewrite (proj1 (proj2 (S1 w))).
    destruct cr1, (cards w !! fresh_id e1); try reflexivity.
    now apply lookup_insert_ne. }
  split; [apply (proj2 (proj2 (S1 _))), L12|].
  split; [apply (proj2 (proj2 (S2 _))), L21|].
  split.
  - rewrite (proj1 (S1 _)), (proj1 (S2 _)), (proj1 (S2 _)), (proj1 (S1 _)).
    destruct up1, up2; try reflexivity. now apply insert_insert_ne.
  - rewrite (proj1 (proj2 (S1 _))), (proj1 (proj2 (S2 (snd (resume P t1 w))))),
      L12, L21, (proj1 (proj2 (S1 w))), (proj1 (proj2 (S2 w))).
    destruct cr1 as [c1|], cr2 as [c2|],
      (cards w !! fresh_id e1), (cards w !! fresh_id e2); try reflexivity.
    now apply insert_insert_ne.
Qed.

Lemma fill_turns_commute_witness :
  cards (snd (resume examplePlatform
                (AwaitRecordSave exampleEnv exampleRequest
                   (lit "https://storage.googleapis.com/x?sig=1"))
                (snd (resume examplePlatform
                        (AwaitRecordSave exampleEnv2 exampleRequest2
                           (lit "https://storage.googleapis.com/y?sig=2"))
                        initial)))) =
  cards (snd (resume examplePlatform
                (AwaitRecordSave exampleEnv2 exampleRequest2
                   (lit "https://storage.googleapis.com/y?sig=2"))
                (snd (resume examplePlatform
                        (AwaitRecordSave exampleEnv exampleRequest
                           (lit "https://storage.googleapis.com/x?sig=1"))
                        initial)))).
Proof.
  apply (fill_turns_commute examplePlatform
           (AwaitRecordSave exampleEnv exampleRequest
              (lit "https://storage.googleapis.com/x?sig=1"))
           (AwaitRecordSave exampleEnv2 exampleRequest2
              (lit "https://storage.googleapis.com/y?sig=2"))
           exampleEnv exampleEnv2 initial eq_refl eq_refl);
    discriminate.
Defined.

(** ** The middle revision *)

(** X26. GET /get-image/:id of the middle revision never serves an image:
    the file does not require axios, so for a stored record the download
    call throws and the answer is 500 "Failed to fetch image"; every
    answer of that handler is a 404 or a 500. *)
Theorem part001_get_image_never_serves P e (id : JsStr) (w : World) :
  (code (fst (Part001.get_image P e id w)) = 404%Z \/
   code (fst (Part001.get_image P e id w)) = 500%Z) /\
  (forall oid g,
     castObjectId P id = Some oid -> db_result e = Resolves tt ->
     cards w !! oid = Some g -> imagePath g <> [] ->
     Part001.get_image P e id w =
     ({| code := 500; body := StatusMessage "nok" "Failed to fetch image" |},
      w)).
Proof.
  unfold Part001.get_image, try_catch, bind. rewrite findById_run. split.
  - destruct (castObjectId P id) as [oid|]; [|now right].
    destruct (db_result e); [|now right].
    destruct (cards w !! oid) as [g|]; [|now left].
    destruct (negb (ToBoolean (JsString (imagePath g)))); [now left|now right].
  - intros oid g -> -> -> Hp.
    destruct (imagePath g) as [|x p]; [congruence|reflexivity].
Qed.

Lemma part001_get_image_never_serves_witness :
  Part001.get_image examplePlatform exampleFetchEnv exampleId exampleWorld =
  ({| code := 500; body := StatusMessage "nok" "Failed to fetch image" |},
   exampleWorld).
Proof.
  apply (proj2 (part001_get_image_never_serves examplePlatform exampleFetchEnv
                  exampleId exampleWorld) 7 exampleCard eq_refl eq_refl
               (lookup_insert_eq _ _ _)).
  discriminate.
Defined.
